(** * The backend supervisor of the Electron shell

    The repository carries two revisions of the [BackendManager] module:

    - [electron-app/src/backend-manager.js], the file [main.js] requires;
    - a later revision, the second document stored in
      [electron-app/src/preload.js], which adds the existence check of the
      executable, the [--port] argument, a longer startup timer and more
      readiness markers.

    [isPortAvailable], [findAvailablePort], the constructor,
    [getBackendPath], the stderr, error and exit listeners and [stop] are
    textually the same in both; the places where they differ are selected by
    a [revision].

    JavaScript numbers are modelled by [Z]: every number the module handles
    is an integer (ports, offsets, milliseconds), exact in a double below
    2^53 and printed as plain digits below 10^21.  The one number that
    comes from outside is the port read from the child's output;
    statements about its value or its text bound the captured digits
    ([short_match]).  Strings are [string]; a stdout chunk is the text
    [data.toString()] yields.

    What Node, Electron and the operating system answer is a [host]; what
    the module does to them is recorded, in order, as a list of [effect].
    [start()] is its executor followed by an event loop: the child's events
    come with the time, in milliseconds since [setTimeout], at which they
    are delivered, each is handed to the listener attached for it, and the
    timer callback runs when its delay is over unless the timer was
    cleared.  The promise of [start()] settles once, as promises do.  The
    executor is an [async] function: an exception of [spawn] inside it is
    lost, and the promise of [start()] is then never settled. *)

From Stdlib Require Import ZArith List String Ascii Bool DecimalString Lia.
Import ListNotations.

Local Open Scope string_scope.
Local Open Scope Z_scope.

(** ** JavaScript values *)

(** [new Error(message)]: the module throws and rejects with nothing else. *)
Inductive js_error : Type :=
| Error (message : string).

Definition message (e : js_error) : string :=
  match e with Error m => m end.

(** How a call ends: with a value, or by throwing. *)
Inductive completion (A : Type) : Type :=
| Returns (a : A)
| Throws (e : js_error).

Arguments Returns {A} a.
Arguments Throws {A} e.

(** A number inside a template literal, [`${n}`], for an integer [n] of
    magnitude below 10^21; from there on JavaScript prints exponent
    notation, which this text does not follow.  The module prints ports,
    and statements that print a port taken from the output bound its
    digits ([short_match]). *)
Definition Number_toString (n : Z) : string :=
  NilZero.string_of_int (Z.to_int n).

(** [code] of the exit event is a number, or [null] after a signal. *)
Definition exit_code_toString (code : option Z) : string :=
  match code with
  | Some n => Number_toString n
  | None => "null"
  end.

(** ** Strings: [String.prototype.includes] and [/localhost:(\d+)/] *)

(** [hay.includes(needle)]. *)
Fixpoint includes (hay needle : string) : bool :=
  String.prefix needle hay ||
  match hay with
  | EmptyString => false
  | String _ rest => includes rest needle
  end.

(** [\d] without the unicode flag: the ten ASCII digits. *)
Definition is_digit (c : ascii) : bool :=
  let n := nat_of_ascii c in
  (Nat.leb 48 n && Nat.leb n 57)%bool.

(** [(\d+)] is greedy: the longest run of digits at the head of [s]. *)
Fixpoint take_digits (s : string) : string :=
  match s with
  | String c rest => if is_digit c then String c (take_digits rest) else EmptyString
  | EmptyString => EmptyString
  end.

(** The text after the prefix [p] of [s], when [s] starts with [p]. *)
Fixpoint strip_prefix (p s : string) : option string :=
  match p, s with
  | EmptyString, _ => Some s
  | String a p', String b s' =>
      if Ascii.eqb a b then strip_prefix p' s' else None
  | String _ _, EmptyString => None
  end.

(** The pattern anchored at the head of [s]: the captured group. *)
Definition localhost_port_here (s : string) : option string :=
  match strip_prefix "localhost:" s with
  | Some rest =>
      match take_digits rest with
      | EmptyString => None
      | ds => Some ds
      end
  | None => None
  end.

(** [output.match(/localhost:(\d+)/)]: the leftmost match; the result is
    [portMatch[1]], or [None] for [null]. *)
Fixpoint match_localhost_port (output : string) : option string :=
  match localhost_port_here output with
  | Some ds => Some ds
  | None =>
      match output with
      | EmptyString => None
      | String _ rest => match_localhost_port rest
      end
  end.

Definition digit_value (c : ascii) : Z :=
  Z.of_nat (nat_of_ascii c) - 48.

Fixpoint parse_digits (acc : Z) (s : string) : Z :=
  match s with
  | EmptyString => acc
  | String c rest => parse_digits (10 * acc + digit_value c) rest
  end.

(** [parseInt(ds, 10)] on a captured group, which is a non-empty run of
    digits.  The value is the one JavaScript computes while it stays below
    2^53; a longer run is rounded to a double there and not here, so
    statements about the number a chunk yields bound its digits
    ([short_match]). *)
Definition parseInt (ds : string) : Z := parse_digits 0 ds.

(** ** What the module does to the outside *)

Inductive effect : Type :=
| NetListen (p : Z) (hostname : string)      (* net.createServer().listen(p, hostname) *)
| ServerClose (p : Z)                        (* server.close() of the probe on p *)
| ConsoleLog (text : string)
| ConsoleError (text : string)
| ConsoleErrorWith (text : string) (e : js_error)   (* console.error(text, err) *)
| FsExistsSync (file : string)
| Spawn (file : string) (args : list string) (stdio : list string) (windowsHide : bool)
| SetTimeout (ms : Z)
| ClearTimeout
| TreeKill (target : option Z) (signal : string)
| ResolveCall (value : Z)                    (* resolve(v) of the promise of start() *)
| RejectCall (reason : js_error).            (* reject(e) of the promise of start() *)

(** ** The host: what Node, Electron and the operating system answer *)

(** What [server.listen(p, 'localhost')] leads to: the 'listening' event,
    the 'error' event, or an exception thrown by [listen] itself (a port
    number it refuses). *)
Inductive listen_outcome : Type :=
| Listening
| ListenError
| ListenThrows (e : js_error).

Record host : Type := {
  net_listen : Z -> listen_outcome;
  app_isPackaged : bool;
  process_resourcesPath : string;
  dirname : string;                       (* __dirname *)
  path_join : list string -> string;      (* path.join *)
  fs_existsSync : string -> bool;
  spawn_pid : option Z;                   (* pid of the spawned child, if it got one *)
  spawn_throws : option js_error;         (* the exception of spawn(), when it throws *)
  tree_kill : option Z -> string -> option js_error
                                          (* the err tree-kill hands to its callback *)
}.

(** ** A writer for the asynchronous functions: result and effects in order *)

Definition IO (A : Type) : Type := (completion A * list effect)%type.

Definition ret {A} (a : A) : IO A := (Returns a, []).

Definition throw {A} (e : js_error) : IO A := (Throws e, []).

Definition emit (e : effect) : IO unit := (Returns tt, [e]).

Definition bind {A B} (m : IO A) (k : A -> IO B) : IO B :=
  match m with
  | (Returns a, tr) => let (r, tr') := k a in (r, (tr ++ tr')%list)
  | (Throws e, tr) => (Throws e, tr)
  end.

Notation "x <- m ;; k" := (bind m (fun x => k))
  (at level 61, m at next level, right associativity).
Notation "m ;;; k" := (bind m (fun _ => k))
  (at level 61, right associativity).

(** ** The port allocator *)

Definition DEFAULT_PORT : Z := 7861.
Definition MAX_PORT_ATTEMPTS : Z := 10.

(** [isPortAvailable(port)]: the promise resolves [false] on 'error', and
    [true] on 'listening' after closing the server; an exception of
    [listen] inside the executor rejects it. *)
Definition isPortAvailable (h : host) (p : Z) : IO bool :=
  emit (NetListen p "localhost") ;;;
  match net_listen h p with
  | ListenError => ret false
  | Listening => emit (ServerClose p) ;;; ret true
  | ListenThrows e => throw e
  end.

(** The [for] loop of [findAvailablePort] from [offset] on, with [remaining]
    iterations left before [offset < maxAttempts] fails; [None] when the
    loop ends without returning. *)
Fixpoint findAvailablePort_loop (h : host) (startPort offset : Z) (remaining : nat)
  : IO (option Z) :=
  match remaining with
  | O => ret None
  | S remaining' =>
      let p := startPort + offset in
      available <- isPortAvailable h p ;;
      if available then ret (Some p)
      else
        emit (ConsoleLog ("Port " ++ Number_toString p ++ " is in use, trying next...")) ;;;
        findAvailablePort_loop h startPort (offset + 1) remaining'
  end.

Definition no_port_message (startPort maxAttempts : Z) : string :=
  "No available port found in range " ++ Number_toString startPort ++ "-"
    ++ Number_toString (startPort + maxAttempts - 1).

(** [findAvailablePort(startPort, maxAttempts)]: [offset] runs over
    0, 1, ... while [offset < maxAttempts]. *)
Definition findAvailablePort (h : host) (startPort maxAttempts : Z) : IO Z :=
  found <- findAvailablePort_loop h startPort 0 (Z.to_nat maxAttempts) ;;
  match found with
  | Some p => ret p
  | None => throw (Error (no_port_message startPort maxAttempts))
  end.

(** The ports a run tried to bind, in order. *)
Fixpoint probes (tr : list effect) : list Z :=
  match tr with
  | [] => []
  | NetListen p _ :: tr' => p :: probes tr'
  | _ :: tr' => probes tr'
  end.

(** [P, P+1, ..., P+n-1]. *)
Fixpoint ports_from (P : Z) (n : nat) : list Z :=
  match n with
  | O => []
  | S n' => P :: ports_from (P + 1) n'
  end.

(** ** The supervisor *)

(** The two revisions of the module. *)
Inductive revision : Type :=
| backend_manager_js     (* electron-app/src/backend-manager.js *)
| preload_js.            (* the second document of electron-app/src/preload.js *)

(** The [ChildProcess] object, as far as the module reads it: [pid], which
    is [undefined] when the process could not be created. *)
Record child : Type := { pid : option Z }.

(** The fields of a [BackendManager] instance. *)
Record manager : Type := {
  process : option child;       (* this.process, [None] for null *)
  port : Z;                     (* this.port *)
  isReady : bool                (* this.isReady *)
}.

(** [constructor()]. *)
Definition constructor : manager :=
  {| process := None; port := DEFAULT_PORT; isReady := false |}.

(** [getBackendPath()]. *)
Definition getBackendPath (h : host) : string :=
  if app_isPackaged h
  then path_join h [process_resourcesPath h; "backend"; "backend.exe"]
  else path_join h [dirname h; "../../python-dist/backend.exe"].

(** The promise [start()] returns. *)
Inductive settlement : Type :=
| Pending
| Fulfilled (value : Z)
| Rejected (reason : js_error).

(** One call of [start()] in flight: the instance, the promise, the timer
    of [setTimeout], the listeners on the child, the time since the timer
    was armed, and everything done so far. *)
Record machine : Type := {
  this : manager;
  promise : settlement;
  settled_at : option Z;        (* the time at which the promise settled *)
  timer : option Z;             (* the armed timer and its delay in ms *)
  listening : bool;             (* listeners are attached to the child *)
  clock : Z;                    (* ms since [setTimeout] *)
  log : list effect
}.

Definition with_this (f : manager -> manager) (mc : machine) : machine :=
  {| this := f (this mc); promise := promise mc; settled_at := settled_at mc;
     timer := timer mc; listening := listening mc; clock := clock mc;
     log := log mc |}.

Definition set_process (c : option child) (m : manager) : manager :=
  {| process := c; port := port m; isReady := isReady m |}.

Definition set_port (p : Z) (m : manager) : manager :=
  {| process := process m; port := p; isReady := isReady m |}.

Definition set_isReady (b : bool) (m : manager) : manager :=
  {| process := process m; port := port m; isReady := b |}.

Definition do_effects (es : list effect) (mc : machine) : machine :=
  {| this := this mc; promise := promise mc; settled_at := settled_at mc;
     timer := timer mc; listening := listening mc; clock := clock mc;
     log := (log mc ++ es)%list |}.

Definition console_log (text : string) : machine -> machine :=
  do_effects [ConsoleLog text].

Definition console_error (text : string) : machine -> machine :=
  do_effects [ConsoleError text].

(** A promise settles once: later calls of [resolve] and [reject] change
    nothing. *)
Definition settle (s : settlement) (mc : machine) : machine :=
  match promise mc with
  | Pending =>
      {| this := this mc; promise := s; settled_at := Some (clock mc);
         timer := timer mc; listening := listening mc; clock := clock mc;
         log := log mc |}
  | _ => mc
  end.

Definition resolve (v : Z) (mc : machine) : machine :=
  settle (Fulfilled v) (do_effects [ResolveCall v] mc).

Definition reject (e : js_error) (mc : machine) : machine :=
  settle (Rejected e) (do_effects [RejectCall e] mc).

Definition setTimeout (ms : Z) (mc : machine) : machine :=
  {| this := this mc; promise := promise mc; settled_at := settled_at mc;
     timer := Some ms; listening := listening mc; clock := 0;
     log := (log mc ++ [SetTimeout ms])%list |}.

Definition clearTimeout (mc : machine) : machine :=
  {| this := this mc; promise := promise mc; settled_at := settled_at mc;
     timer := None; listening := listening mc; clock := clock mc;
     log := (log mc ++ [ClearTimeout])%list |}.

Definition attach_listeners (mc : machine) : machine :=
  {| this := this mc; promise := promise mc; settled_at := settled_at mc;
     timer := timer mc; listening := true; clock := clock mc; log := log mc |}.

Definition at_time (t : Z) (mc : machine) : machine :=
  {| this := this mc; promise := promise mc; settled_at := settled_at mc;
     timer := timer mc; listening := listening mc; clock := t; log := log mc |}.

(** *** What differs between the revisions *)

(** The delay given to [setTimeout]. *)
Definition STARTUP_TIMEOUT_MS (rev : revision) : Z :=
  match rev with
  | backend_manager_js => 30000
  | preload_js => 60000
  end.

(** The error the timer callback rejects with. *)
Definition timeout_error (rev : revision) : js_error :=
  match rev with
  | backend_manager_js => Error "Backend startup timeout (30s)"
  | preload_js => Error "Backend startup timeout (60s)"
  end.

(** The argument list given to [spawn]. *)
Definition spawn_args (rev : revision) (p : Z) : list string :=
  match rev with
  | backend_manager_js => ["-u"]
  | preload_js => ["-u"; "--port"; Number_toString p]
  end.

Definition newline : string := String (ascii_of_nat 10) EmptyString.
Definition dquote : string := String (ascii_of_nat 34) EmptyString.

(** The message of the error for a missing executable ([preload_js]). *)
Definition not_found_message (h : host) (backendPath : string) : string :=
  let isDev := negb (app_isPackaged h) in
  let helpMsg :=
    if isDev
    then "Run " ++ dquote ++ "pyinstaller backend.spec --clean && cp dist/backend.exe python-dist/"
           ++ dquote ++ " to build it."
    else "Please reinstall the application or contact support." in
  "Backend not found: " ++ backendPath ++ newline ++ newline ++ helpMsg.

(** *** The listeners of [start()] *)

(** What the child and the event loop deliver after the spawn. *)
Inductive event : Type :=
| StdoutData (data : string)        (* this.process.stdout 'data' *)
| StderrData (data : string)        (* this.process.stderr 'data' *)
| ChildError (err_message : string) (* this.process 'error', with err.message *)
| ChildExit (code : option Z).      (* this.process 'exit' *)

(** The callback given to [setTimeout]. *)
Definition onTimeout (rev : revision) (mc : machine) : machine :=
  reject (timeout_error rev) mc.

(** A match result used as a condition: [null] is falsy, a match truthy. *)
Definition truthy (portMatch : option string) : bool :=
  match portMatch with
  | Some _ => true
  | None => false
  end.

(** The body both stdout listeners run once the chunk counts as a readiness
    signal. *)
Definition ready_branch (portMatch : option string) (mc : machine) : machine :=
  let mc :=
    match portMatch with
    | Some ds => with_this (set_port (parseInt ds)) mc
    | None => mc
    end in
  let mc := clearTimeout mc in
  let mc := with_this (set_isReady true) mc in
  resolve (port (this mc)) mc.

(** The 'data' listener on the child's stdout. *)
Definition onStdoutData (rev : revision) (data : string) (mc : machine) : machine :=
  let output := data in
  let mc := console_log ("[Backend] " ++ output) mc in
  match rev with
  | backend_manager_js =>
      let portMatch := match_localhost_port output in
      if includes output "Running on" || truthy portMatch
      then ready_branch portMatch mc
      else mc
  | preload_js =>
      if includes output "initializing"
      then console_log "Backend is initializing..." mc
      else
        let portMatch := match_localhost_port output in
        let isReady :=
          includes output "Running on" ||
          includes output "Launching Gradio" ||
          includes output "local URL:" ||
          truthy portMatch in
        if isReady then ready_branch portMatch mc else mc
  end.

(** The 'data' listener on the child's stderr. *)
Definition onStderrData (data : string) (mc : machine) : machine :=
  console_error ("[Backend Error] " ++ data) mc.

(** The 'error' listener on the child. *)
Definition onError (err_message : string) (mc : machine) : machine :=
  let mc := clearTimeout mc in
  reject (Error ("Failed to start backend: " ++ err_message)) mc.

(** The 'exit' listener on the child. *)
Definition onExit (code : option Z) (mc : machine) : machine :=
  let mc := console_log ("Backend exited with code " ++ exit_code_toString code) mc in
  with_this (set_isReady false) mc.

Definition dispatch (rev : revision) (ev : event) (mc : machine) : machine :=
  match ev with
  | StdoutData data => onStdoutData rev data mc
  | StderrData data => onStderrData data mc
  | ChildError err_message => onError err_message mc
  | ChildExit code => onExit code mc
  end.

(** *** [start()] up to the point where it waits for events *)

Definition idle (m : manager) : machine :=
  {| this := m; promise := Pending; settled_at := None; timer := None;
     listening := false; clock := 0; log := [] |}.

Definition stdio_pipes : list string := ["pipe"; "pipe"; "pipe"].

(** From [spawn] on: the child, the timer, the listeners.  When [spawn]
    throws, the exception leaves the [async] executor: the promise of the
    executor is rejected and nobody looks at it, the assignment to
    [this.process] and everything after it do not happen, and neither
    [resolve] nor [reject] is ever called. *)
Definition spawn_and_listen (rev : revision) (h : host) (backendPath : string)
  (mc : machine) : machine :=
  let mc := do_effects
              [Spawn backendPath (spawn_args rev (port (this mc))) stdio_pipes true] mc in
  match spawn_throws h with
  | Some _ => mc
  | None =>
      let mc := with_this (set_process (Some {| pid := spawn_pid h |})) mc in
      let mc := setTimeout (STARTUP_TIMEOUT_MS rev) mc in
      attach_listeners mc
  end.

(** The executor of the promise of [start()]. *)
Definition start_executor (rev : revision) (h : host) (m : manager) : machine :=
  match findAvailablePort h DEFAULT_PORT MAX_PORT_ATTEMPTS with
  | (Throws err, tr) => reject err (do_effects tr (idle m))
  | (Returns p, tr) =>
      let mc := with_this (set_port p) (do_effects tr (idle m)) in
      let mc := console_log ("Using port: " ++ Number_toString (port (this mc))) mc in
      let backendPath := getBackendPath h in
      let mc := console_log ("Starting backend: " ++ backendPath) mc in
      match rev with
      | backend_manager_js => spawn_and_listen rev h backendPath mc
      | preload_js =>
          let mc := do_effects [FsExistsSync backendPath] mc in
          if negb (fs_existsSync h backendPath)
          then reject (Error (not_found_message h backendPath)) mc
          else spawn_and_listen rev h backendPath mc
      end
  end.

(** *** The event loop *)

(** The timer fires once its delay has passed, unless it was cleared. *)
Definition fire_timer (rev : revision) (d : Z) (mc : machine) : machine :=
  let mc := at_time d mc in
  let mc :=
    {| this := this mc; promise := promise mc; settled_at := settled_at mc;
       timer := None; listening := listening mc; clock := clock mc; log := log mc |} in
  onTimeout rev mc.

Definition fire_if_due (rev : revision) (t : Z) (mc : machine) : machine :=
  match timer mc with
  | Some d => if d <=? t then fire_timer rev d mc else mc
  | None => mc
  end.

(** One event delivered at time [t] (in ms since the timer was armed): a
    timer that is due runs first.  Without listeners nothing is delivered. *)
Definition step (rev : revision) (mc : machine) (tev : Z * event) : machine :=
  if listening mc
  then
    let mc := fire_if_due rev (fst tev) mc in
    dispatch rev (snd tev) (at_time (fst tev) mc)
  else mc.

Definition run (rev : revision) (evs : list (Z * event)) (mc : machine) : machine :=
  fold_left (step rev) evs mc.

(** After the last event, a timer still armed fires when its delay is over. *)
Definition quiesce (rev : revision) (mc : machine) : machine :=
  match timer mc with
  | Some d => fire_timer rev d mc
  | None => mc
  end.

(** [start()] on the instance [m], the child then delivering [evs]. *)
Definition start (rev : revision) (h : host) (m : manager) (evs : list (Z * event))
  : machine :=
  quiesce rev (run rev evs (start_executor rev h m)).

(** *** [stop()] *)

Inductive stop_promise : Type :=
| StopFulfilled
| StopRejected (reason : js_error).

(** The callback [stop()] gives to tree-kill, called with [err]: what it
    prints, the state it leaves, and [resolve()]. *)
Definition kill_callback (err : option js_error) (m : manager)
  : manager * list effect * stop_promise :=
  let printed :=
    match err with
    | Some e => [ConsoleErrorWith "Error killing backend:" e]
    | None => []
    end in
  let m := set_process None m in
  let m := set_isReady false m in
  (m, printed, StopFulfilled).

(** [stop()]: the state it leaves, what it did, and how its promise
    settles.  tree-kill reports through its callback, with an error or
    without; an [async] function that falls off its end resolves. *)
Definition stop (h : host) (m : manager) : manager * list effect * stop_promise :=
  match process m with
  | Some c =>
      let '(m', printed, settled) :=
        kill_callback (tree_kill h (pid c) "SIGTERM") m in
      (m', (TreeKill (pid c) "SIGTERM" :: printed)%list, settled)
  | None => (m, [], StopFulfilled)
  end.

(** ** Readings of the model used to state its properties *)

(** Whether the stdout listener of [rev] takes [output] as a readiness
    signal, that is, reaches [ready_branch]. *)
Definition is_ready_chunk (rev : revision) (output : string) : bool :=
  match rev with
  | backend_manager_js =>
      includes output "Running on" || truthy (match_localhost_port output)
  | preload_js =>
      negb (includes output "initializing") &&
      (includes output "Running on" ||
       includes output "Launching Gradio" ||
       includes output "local URL:" ||
       truthy (match_localhost_port output))
  end.

(** An event that neither signals readiness nor reports an error. *)
Definition calm (rev : revision) (ev : event) : bool :=
  match ev with
  | StdoutData data => negb (is_ready_chunk rev data)
  | ChildError _ => false
  | StderrData _ | ChildExit _ => true
  end.

(** A calm event delivered before the delay [d] is over. *)
Definition calm_before (rev : revision) (d : Z) (tev : Z * event) : bool :=
  (fst tev <? d) && calm rev (snd tev).

(** An event that is calm, or comes when the delay [d] is already over. *)
Definition calm_or_late (rev : revision) (d : Z) (tev : Z * event) : bool :=
  (d <=? fst tev) || calm rev (snd tev).

Definition signals_ready (rev : revision) (tev : Z * event) : bool :=
  match snd tev with
  | StdoutData data => is_ready_chunk rev data
  | _ => false
  end.

Definition is_exit (tev : Z * event) : bool :=
  match snd tev with
  | ChildExit _ => true
  | _ => false
  end.

(** [this.isReady] after each event of a run. *)
Fixpoint ready_history (rev : revision) (evs : list (Z * event)) (mc : machine)
  : list bool :=
  match evs with
  | [] => []
  | tev :: rest =>
      let mc' := step rev mc tev in
      isReady (this mc') :: ready_history rev rest mc'
  end.

(** How often a flag that was [prev] goes from [false] to [true] along [l]. *)
Fixpoint rises (prev : bool) (l : list bool) : nat :=
  match l with
  | [] => O
  | b :: rest => ((if negb prev && b then 1 else 0) + rises b rest)%nat
  end.

Definition is_spawn (e : effect) : bool :=
  match e with
  | Spawn _ _ _ _ => true
  | _ => false
  end.

(** The [spawn] calls of a log. *)
Definition spawns (tr : list effect) : list effect := filter is_spawn tr.

Definition is_tree_kill (e : effect) : bool :=
  match e with
  | TreeKill _ _ => true
  | _ => false
  end.

(** A machine without its log: the state proper. *)
Definition state_of (mc : machine) : machine :=
  {| this := this mc; promise := promise mc; settled_at := settled_at mc;
     timer := timer mc; listening := listening mc; clock := clock mc; log := [] |}.

(** The port [ready_branch] resolves with, [allocated] being [this.port]
    when the chunk arrives. *)
Definition effective_port (portMatch : option string) (allocated : Z) : Z :=
  match portMatch with
  | Some ds => parseInt ds
  | None => allocated
  end.

(** The string functions stay folded in proofs about the listeners. *)
Arguments includes : simpl never.
Arguments match_localhost_port : simpl never.
Arguments Number_toString : simpl never.
Arguments String.append : simpl never.

(** [start()] is waiting: listeners attached, promise pending, the timer
    armed with delay [d]. *)
Definition waiting (d : Z) (mc : machine) : Prop :=
  listening mc = true /\ promise mc = Pending /\ timer mc = Some d.

(** Whether the executor gets from the allocated port to the call of
    [spawn]: the later revision returns before it when the executable is
    missing. *)
Definition passes_check (rev : revision) (h : host) : bool :=
  match rev with
  | backend_manager_js => true
  | preload_js => fs_existsSync h (getBackendPath h)
  end.

(** Whether [spawn] returns a child. *)
Definition spawn_returns (h : host) : bool :=
  match spawn_throws h with
  | None => true
  | Some _ => false
  end.

(** Whether the executor gets from the allocated port to a spawned child:
    it reaches the call of [spawn], and [spawn] returns the child. *)
Definition reaches_spawn (rev : revision) (h : host) : bool :=
  passes_check rev h && spawn_returns h.

(** Whether [start()] ends in a call of [spawn] that throws. *)
Definition spawn_call_throws (rev : revision) (h : host) : bool :=
  match fst (findAvailablePort h DEFAULT_PORT MAX_PORT_ATTEMPTS) with
  | Returns _ => passes_check rev h && negb (spawn_returns h)
  | Throws _ => false
  end.

(** The captured digits of a stdout chunk are few enough for [parseInt]
    to be exact and for the number to print as plain digits: at most 15
    digits, a value below 10^15. *)
Definition short_match (tev : Z * event) : bool :=
  match snd tev with
  | StdoutData data =>
      match match_localhost_port data with
      | Some ds => Nat.leb (String.length ds) 15
      | None => true
      end
  | _ => true
  end.

(** A port number the model treats as JavaScript does. *)
Definition plain_port (v : Z) : Prop := 0 <= v < 10 ^ 15.

Fixpoint digits_only (s : string) : bool :=
  match s with
  | EmptyString => true
  | String c rest => is_digit c && digits_only rest
  end.

(** The machine an event is dispatched on: the due timer has run. *)
Definition due (rev : revision) (t : Z) (mc : machine) : machine :=
  at_time t (fire_if_due rev t mc).

(** What the loop did, read off its result: [k] ports were probed, the
    consecutive ones from [startPort + offset]. *)
Definition loop_post (h : host) (first : Z) (remaining k : nat)
  (r : completion (option Z)) : Prop :=
  match r with
  | Returns (Some p) =>
      (0 < k)%nat /\ p = first + Z.of_nat k - 1 /\
      net_listen h p = Listening /\
      (forall q, first <= q < p -> net_listen h q = ListenError)
  | Returns None =>
      k = remaining /\
      (forall q, first <= q < first + Z.of_nat remaining -> net_listen h q = ListenError)
  | Throws e =>
      (0 < k)%nat /\
      net_listen h (first + Z.of_nat k - 1) = ListenThrows e /\
      (forall q, first <= q < first + Z.of_nat k - 1 -> net_listen h q = ListenError)
  end.

(** Unfolds the listeners down to the record updates. *)
Ltac unfold_listeners :=
  unfold dispatch, onStdoutData, onStderrData, onError, onExit, onTimeout,
    ready_branch, resolve, reject, settle, clearTimeout, console_log,
    console_error, do_effects, with_this, at_time.

(** ** The application shell: main.js *)

(** The options [createWindow()] gives to [new BrowserWindow]. *)
Record window_options : Type := {
  width : Z; height : Z; minWidth : Z; minHeight : Z;
  preload : string;                 (* webPreferences.preload *)
  nodeIntegration : bool;           (* webPreferences.nodeIntegration *)
  contextIsolation : bool;          (* webPreferences.contextIsolation *)
  show : bool;
  titleBarStyle : string
}.

(** What [main.js] itself does, beside what it asks the backend manager. *)
Inductive app_effect : Type :=
| NewBrowserWindow (options : window_options)   (* new BrowserWindow(options) *)
| WindowLoadFile (file : string)         (* mainWindow.loadFile(file) *)
| WindowOnce (event_name : string)       (* mainWindow.once(name, listener) *)
| WindowOn (event_name : string)         (* mainWindow.on(name, listener) *)
| WindowLoadURL (url : string)           (* mainWindow.loadURL(url) *)
| MainConsoleLog (text : string)
| MainConsoleErrorWith (text : string) (e : js_error)
| Wait (ms : Z)                          (* await new Promise(r => setTimeout(r, ms)) *)
| ShowErrorBox (title content : string)  (* dialog.showErrorBox(title, content) *)
| AppQuit                                (* app.quit() *)
| CheckForUpdatesAndNotify.              (* autoUpdater.checkForUpdatesAndNotify() *)

(** [createWindow()]: the hidden window with its preload script, the
    loading page, and the two listeners on the window. *)
Definition createWindow (h : host) : list app_effect :=
  [NewBrowserWindow
     {| width := 1280; height := 800; minWidth := 800; minHeight := 600;
        preload := path_join h [dirname h; "preload.js"];
        nodeIntegration := false; contextIsolation := true;
        show := false; titleBarStyle := "default" |};
   WindowLoadFile (path_join h [dirname h; "renderer/index.html"]);
   WindowOnce "ready-to-show";
   WindowOn "close"].

(** The last statement of [startApp()]. *)
Definition update_check (h : host) : list app_effect :=
  if app_isPackaged h then [CheckForUpdatesAndNotify] else [].

(** [startApp()], on the module's [new BackendManager()], the child then
    delivering [evs]: what [main.js] does.  While the promise of [start()]
    is pending the [await] does not return. *)
Definition startApp (rev : revision) (h : host) (evs : list (Z * event))
  : list app_effect :=
  (createWindow h ++
   match promise (start rev h constructor evs) with
   | Fulfilled p =>
       [MainConsoleLog ("Backend ready on port " ++ Number_toString p);
        Wait 2000;
        WindowLoadURL ("http://localhost:" ++ Number_toString p)]
       ++ update_check h
   | Rejected error =>
       [MainConsoleErrorWith "Backend startup failed:" error;
        ShowErrorBox "Startup Error"
          ("Failed to start PPTAgent backend:" ++ newline ++ message error);
        AppQuit]
       ++ update_check h
   | Pending => []
   end)%list.

(** ** Further readings of the model *)

(** The probes a run closed again, in order. *)
Fixpoint closes (tr : list effect) : list Z :=
  match tr with
  | [] => []
  | ServerClose p :: tr' => p :: closes tr'
  | _ :: tr' => closes tr'
  end.

(** The interfaces a run tried to bind on, in order. *)
Fixpoint probed_hosts (tr : list effect) : list string :=
  match tr with
  | [] => []
  | NetListen _ hostname :: tr' => hostname :: probed_hosts tr'
  | _ :: tr' => probed_hosts tr'
  end.

(** What the allocator does to the outside: listen, close, print. *)
Definition allocator_effect (e : effect) : bool :=
  match e with
  | NetListen _ _ | ServerClose _ | ConsoleLog _ => true
  | _ => false
  end.

Definition is_exists_check (e : effect) : bool :=
  match e with
  | FsExistsSync _ => true
  | _ => false
  end.

(** What the listeners and the timer callback do to the outside: print,
    clear the timer, call [resolve] or [reject]. *)
Definition listener_effect (e : effect) : bool :=
  match e with
  | ConsoleLog _ | ConsoleError _ | ClearTimeout | ResolveCall _ | RejectCall _ => true
  | _ => false
  end.

(** [this.port] after one event, from [this.port] before it: a readiness
    chunk that matches the pattern overwrites it. *)
Definition port_after (rev : revision) (current : Z) (tev : Z * event) : Z :=
  match snd tev with
  | StdoutData data =>
      if is_ready_chunk rev data
      then effective_port (match_localhost_port data) current
      else current
  | _ => current
  end.

(** [this.port] after the events [evs], from the allocated port. *)
Definition port_trail (rev : revision) (evs : list (Z * event)) (allocated : Z) : Z :=
  fold_left (port_after rev) evs allocated.

(** The promise is pending with the timer armed for [d], or it has settled
    no later than [d]. *)
Definition on_schedule (d : Z) (mc : machine) : Prop :=
  (promise mc = Pending /\ timer mc = Some d) \/
  (promise mc <> Pending /\ exists s, settled_at mc = Some s /\ s <= d).

(** What the outcome of [start()] is made from: the promise, its time,
    the timer, the listeners, the clock and [this.port], without
    [this.process] and [this.isReady]. *)
Definition outcome_state (mc : machine)
  : settlement * option Z * option Z * bool * Z * Z :=
  (promise mc, settled_at mc, timer mc, listening mc, clock mc, port (this mc)).

(** ** Hosts to run the model on *)

Module Examples.

Definition join (parts : list string) : string := String.concat "/" parts.

(** Every port is free, the executable is in place (development tree),
    the child gets pid 4242 and tree-kill succeeds. *)
Definition host_ok : host :=
  {| net_listen := fun _ => Listening;
     app_isPackaged := false;
     process_resourcesPath := "/opt/app/resources";
     dirname := "/work/electron-app/src";
     path_join := join;
     fs_existsSync := fun _ => true;
     spawn_pid := Some 4242;
     spawn_throws := None;
     tree_kill := fun _ _ => None |}.

(** As [host_ok], with 7861 and 7862 taken. *)
Definition host_two_taken : host :=
  {| net_listen := fun p => if p <? 7863 then ListenError else Listening;
     app_isPackaged := false;
     process_resourcesPath := "/opt/app/resources";
     dirname := "/work/electron-app/src";
     path_join := join;
     fs_existsSync := fun _ => true;
     spawn_pid := Some 4242;
     spawn_throws := None;
     tree_kill := fun _ _ => None |}.

(** No port can be bound. *)
Definition host_all_taken : host :=
  {| net_listen := fun _ => ListenError;
     app_isPackaged := false;
     process_resourcesPath := "/opt/app/resources";
     dirname := "/work/electron-app/src";
     path_join := join;
     fs_existsSync := fun _ => true;
     spawn_pid := Some 4242;
     spawn_throws := None;
     tree_kill := fun _ _ => None |}.

(** The executable is missing; [packaged] selects the installed app or
    the development tree.  The child then has no pid. *)
Definition host_no_backend (packaged : bool) : host :=
  {| net_listen := fun _ => Listening;
     app_isPackaged := packaged;
     process_resourcesPath := "/opt/app/resources";
     dirname := "/work/electron-app/src";
     path_join := join;
     fs_existsSync := fun _ => false;
     spawn_pid := None;
     spawn_throws := None;
     tree_kill := fun _ _ => Some (Error "pid must be a number") |}.

(** As [host_ok], but tree-kill reports an error. *)
Definition host_kill_fails : host :=
  {| net_listen := fun _ => Listening;
     app_isPackaged := true;
     process_resourcesPath := "/opt/app/resources";
     dirname := "/work/electron-app/src";
     path_join := join;
     fs_existsSync := fun _ => true;
     spawn_pid := Some 4242;
     spawn_throws := None;
     tree_kill := fun _ _ => Some (Error "Command failed: taskkill") |}.

(** As [host_ok], but [spawn] itself throws. *)
Definition host_spawn_throws : host :=
  {| net_listen := fun _ => Listening;
     app_isPackaged := false;
     process_resourcesPath := "/opt/app/resources";
     dirname := "/work/electron-app/src";
     path_join := join;
     fs_existsSync := fun _ => true;
     spawn_pid := None;
     spawn_throws := Some (Error "spawn EINVAL");
     tree_kill := fun _ _ => None |}.

(** An instance whose backend is running and ready. *)
Definition running : manager :=
  {| process := Some {| pid := Some 4242 |}; port := 7861; isReady := true |}.

End Examples.

(** ** The port allocator: proofs *)

Lemma In_ports_from (P : Z) (n : nat) (q : Z) :
  In q (ports_from P n) <-> P <= q < P + Z.of_nat n.
Proof.
  revert P; induction n as [|n IH]; intros P; simpl.
  - lia.
  - rewrite IH. lia.
Qed.

Lemma findAvailablePort_loop_spec (h : host) (startPort : Z) (remaining : nat) :
  forall offset,
    exists k : nat,
      (k <= remaining)%nat /\
      probes (snd (findAvailablePort_loop h startPort offset remaining))
        = ports_from (startPort + offset) k /\
      loop_post h (startPort + offset) remaining k
        (fst (findAvailablePort_loop h startPort offset remaining)).
Proof.
  induction remaining as [|n IH]; intros offset.
  - exists O. simpl. repeat split; try lia.
  - cbn [findAvailablePort_loop]. unfold isPortAvailable, bind, emit, ret, throw.
    destruct (net_listen h (startPort + offset)) eqn:Hl; cbn.
    + exists 1%nat. cbn. repeat split; try lia; try exact Hl;
        try (rewrite <- Hl; f_equal; lia).
    + destruct (IH (offset + 1)) as (k & Hk & Hp & Hpost).
      destruct (findAvailablePort_loop h startPort (offset + 1) n) as [r tr] eqn:Hloop.
      cbn in *. exists (S k). split; [lia|]. split.
      * cbn. rewrite Hp. f_equal. f_equal. lia.
      * assert (Hfirst : forall q, startPort + offset <= q < startPort + (offset + 1) ->
                                   net_listen h q = ListenError).
        { intros q Hq. replace q with (startPort + offset) by lia. exact Hl. }
        destruct r as [[p|]|e]; cbn in *.
        -- destruct Hpost as (Hk0 & Hpeq & Hlis & Hbefore).
           repeat split; try lia; try assumption.
           intros q Hq.
           destruct (Z_lt_ge_dec q (startPort + (offset + 1))); [apply Hfirst|apply Hbefore]; lia.
        -- destruct Hpost as (Hkeq & Hall). split; [lia|].
           intros q Hq.
           destruct (Z_lt_ge_dec q (startPort + (offset + 1))); [apply Hfirst|apply Hall]; lia.
        -- destruct Hpost as (Hk0 & Hthrow & Hbefore). split; [lia|]. split.
           ++ rewrite <- Hthrow. f_equal. rewrite ?Zpos_P_of_succ_nat. lia.
           ++ intros q Hq. rewrite ?Zpos_P_of_succ_nat in Hq.
              destruct (Z_lt_ge_dec q (startPort + (offset + 1))); [apply Hfirst|apply Hbefore]; lia.
    + exists 1%nat. cbn. repeat split; try lia; try exact Hl;
        try (rewrite <- Hl; f_equal; lia).
Qed.

Lemma findAvailablePort_unfold (h : host) (P N : Z) :
  findAvailablePort h P N =
  match findAvailablePort_loop h P 0 (Z.to_nat N) with
  | (Returns (Some p), tr) => (Returns p, tr)
  | (Returns None, tr) => (Throws (Error (no_port_message P N)), tr)
  | (Throws e, tr) => (Throws e, tr)
  end.
Proof.
  unfold findAvailablePort, bind, ret, throw.
  destruct (findAvailablePort_loop h P 0 (Z.to_nat N)) as [[[p|]|e] tr];
    rewrite ?app_nil_r; reflexivity.
Qed.

(** C1. For every starting port [P] and attempt count [N], the ports
    [findAvailablePort] probes are [P, P+1, ..., P+k-1] for some [k <= N], in
    this order, hence all in [[P, P+N)]; when it returns a port, that port
    is the last one probed, lies in [[P, P+N)], is the one on which the
    transient server came to listen, and the bind failed on every candidate
    before it.  When it throws, either the whole range was probed without
    success and the error carries the range, or [listen] itself threw on
    the last port probed. *)
Theorem findAvailablePort_probes_range (h : host) (P N : Z) :
  exists k : nat,
    (k <= Z.to_nat N)%nat /\
    probes (snd (findAvailablePort h P N)) = ports_from P k /\
    (forall q, In q (probes (snd (findAvailablePort h P N))) -> P <= q < P + N) /\
    match fst (findAvailablePort h P N) with
    | Returns p =>
        P <= p < P + N /\
        p = P + Z.of_nat k - 1 /\
        net_listen h p = Listening /\
        (forall q, P <= q < p -> net_listen h q = ListenError)
    | Throws e =>
        (e = Error (no_port_message P N) /\
         k = Z.to_nat N /\
         (forall q, P <= q < P + N -> net_listen h q = ListenError))
        \/
        ((0 < k)%nat /\
         net_listen h (P + Z.of_nat k - 1) = ListenThrows e /\
         (forall q, P <= q < P + Z.of_nat k - 1 -> net_listen h q = ListenError))
    end.
Proof.
  destruct (findAvailablePort_loop_spec h P (Z.to_nat N) 0) as (k & Hk & Hp & Hpost).
  rewrite findAvailablePort_unfold.
  replace (P + 0) with P in * by lia.
  exists k.
  assert (Hrange : forall q, In q (ports_from P k) -> P <= q < P + N).
  { intros q Hq. apply In_ports_from in Hq. lia. }
  destruct (findAvailablePort_loop h P 0 (Z.to_nat N)) as [[[p|]|e] tr];
    cbn [fst snd] in *; rewrite Hp;
    (split; [exact Hk|]); (split; [reflexivity|]); (split; [exact Hrange|]).
  - destruct Hpost as (Hk0 & Hpeq & Hl & Hbefore).
    split; [lia|]. split; [exact Hpeq|]. split; [exact Hl|exact Hbefore].
  - destruct Hpost as (Hkeq & Hall).
    left. split; [reflexivity|]. split; [exact Hkeq|].
    intros q Hq. apply Hall. lia.
  - destruct Hpost as (Hk0 & Hthrow & Hbefore).
    right. split; [exact Hk0|]. split; [exact Hthrow|exact Hbefore].
Qed.

Lemma findAvailablePort_all_taken (h : host) (P N : Z) :
  (forall q, P <= q < P + N -> net_listen h q = ListenError) ->
  fst (findAvailablePort h P N) = Throws (Error (no_port_message P N)).
Proof.
  intros Hall.
  destruct (findAvailablePort_loop_spec h P (Z.to_nat N) 0) as (k & Hk & _ & Hpost).
  rewrite findAvailablePort_unfold.
  replace (P + 0) with P in * by lia.
  destruct (findAvailablePort_loop h P 0 (Z.to_nat N)) as [[[p|]|e] tr];
    cbn [fst snd] in *; [exfalso | reflexivity | exfalso].
  - destruct Hpost as (Hk0 & Hpeq & Hl & _).
    rewrite Hall in Hl by lia. discriminate.
  - destruct Hpost as (Hk0 & Hthrow & _).
    rewrite Hall in Hthrow by lia. discriminate.
Qed.

Lemma spawns_app (t1 t2 : list effect) :
  spawns (t1 ++ t2) = (spawns t1 ++ spawns t2)%list.
Proof. unfold spawns. apply filter_app. Qed.

Lemma spawns_findAvailablePort_loop (h : host) (P : Z) (remaining : nat) :
  forall offset, spawns (snd (findAvailablePort_loop h P offset remaining)) = [].
Proof.
  induction remaining as [|n IH]; intros offset; [reflexivity|].
  cbn [findAvailablePort_loop]. unfold isPortAvailable, bind, emit, ret, throw.
  destruct (net_listen h (P + offset)); cbn; try reflexivity.
  specialize (IH (offset + 1)).
  destruct (findAvailablePort_loop h P (offset + 1) n) as [r tr]; cbn in *.
  exact IH.
Qed.

Lemma spawns_findAvailablePort (h : host) (P N : Z) :
  spawns (snd (findAvailablePort h P N)) = [].
Proof.
  rewrite findAvailablePort_unfold.
  pose proof (spawns_findAvailablePort_loop h P (Z.to_nat N) 0) as H.
  destruct (findAvailablePort_loop h P 0 (Z.to_nat N)) as [[[p|]|e] tr]; exact H.
Qed.

(** ** The event loop: proofs *)

Lemma run_not_listening (rev : revision) (evs : list (Z * event)) (mc : machine) :
  listening mc = false -> run rev evs mc = mc.
Proof.
  intros Hl. induction evs as [|tev evs IH]; [reflexivity|].
  unfold run in *. cbn [fold_left]. unfold step at 2. rewrite Hl. exact IH.
Qed.

(** The executor when no port is found: the error of the allocator goes to
    [reject] as it is, and nothing else happens. *)
Lemma start_executor_no_port (rev : revision) (h : host) (m : manager) (e : js_error) :
  fst (findAvailablePort h DEFAULT_PORT MAX_PORT_ATTEMPTS) = Throws e ->
  start_executor rev h m =
  {| this := m; promise := Rejected e; settled_at := Some 0; timer := None;
     listening := false; clock := 0;
     log := (snd (findAvailablePort h DEFAULT_PORT MAX_PORT_ATTEMPTS) ++ [RejectCall e])%list |}.
Proof.
  unfold start_executor.
  destruct (findAvailablePort h DEFAULT_PORT MAX_PORT_ATTEMPTS) as [[p|e'] tr];
    cbn [fst snd]; intros H; [discriminate|].
  injection H as ->. reflexivity.
Qed.

(** C2. When the bind fails on every candidate of the range [start()]
    probes, 7861 to 7870, the allocator throws the error whose message
    names that range, the promise of [start()] is rejected with this very
    error, [spawn] is never called, and the instance is left as it was;
    this holds in both revisions and whatever is delivered afterwards. *)
Theorem start_no_port_available (rev : revision) (h : host) (m : manager)
  (evs : list (Z * event)) :
  (forall q, DEFAULT_PORT <= q < DEFAULT_PORT + MAX_PORT_ATTEMPTS ->
             net_listen h q = ListenError) ->
  fst (findAvailablePort h DEFAULT_PORT MAX_PORT_ATTEMPTS)
    = Throws (Error "No available port found in range 7861-7870") /\
  promise (start rev h m evs)
    = Rejected (Error "No available port found in range 7861-7870") /\
  spawns (log (start rev h m evs)) = [] /\
  this (start rev h m evs) = m.
Proof.
  intros Hall.
  pose proof (findAvailablePort_all_taken h _ _ Hall) as Hthrow.
  change (Error (no_port_message DEFAULT_PORT MAX_PORT_ATTEMPTS))
    with (Error "No available port found in range 7861-7870") in Hthrow.
  split; [exact Hthrow|].
  unfold start.
  rewrite (start_executor_no_port rev h m _ Hthrow).
  rewrite run_not_listening by reflexivity.
  cbn. split; [reflexivity|]. split; [|reflexivity].
  rewrite spawns_app, spawns_findAvailablePort. reflexivity.
Qed.

Lemma start_no_port_available_witness :
  (forall q, DEFAULT_PORT <= q < DEFAULT_PORT + MAX_PORT_ATTEMPTS ->
             net_listen Examples.host_all_taken q = ListenError) /\
  promise (start preload_js Examples.host_all_taken constructor
             [(10, StdoutData "Running on http://localhost:7861")])
    = Rejected (Error "No available port found in range 7861-7870") /\
  spawns (log (start preload_js Examples.host_all_taken constructor
                 [(10, StdoutData "Running on http://localhost:7861")])) = [] /\
  this (start preload_js Examples.host_all_taken constructor
          [(10, StdoutData "Running on http://localhost:7861")]) = constructor.
Proof.
  split; [intros q Hq; reflexivity|].
  apply (start_no_port_available preload_js Examples.host_all_taken constructor
           [(10, StdoutData "Running on http://localhost:7861")]).
  intros q Hq. reflexivity.
Defined.

(** ** [stop()]: proofs *)

(** C3. In every state of the instance and whatever tree-kill reports,
    the promise of [stop()] is fulfilled.  With a child handle, [stop()]
    sends one tree-wide SIGTERM to the pid of that child and afterwards
    [this.process] is null and [this.isReady] false, the port being kept;
    an error of tree-kill is printed and goes no further.  Without a
    handle [stop()] does nothing and leaves the instance as it is. *)
Theorem stop_always_resolves (h : host) (m : manager) :
  snd (stop h m) = StopFulfilled /\
  match process m with
  | Some c =>
      snd (fst (stop h m))
        = (TreeKill (pid c) "SIGTERM"
           :: match tree_kill h (pid c) "SIGTERM" with
              | Some e => [ConsoleErrorWith "Error killing backend:" e]
              | None => []
              end)%list /\
      fst (fst (stop h m)) = {| process := None; port := port m; isReady := false |}
  | None =>
      snd (fst (stop h m)) = [] /\
      fst (fst (stop h m)) = m
  end.
Proof.
  unfold stop.
  destruct (process m) as [c|] eqn:Hp; cbn.
  - destruct (tree_kill h (pid c) "SIGTERM") as [e|]; cbn; repeat split; reflexivity.
  - repeat split; reflexivity.
Qed.

(** ** The listeners of [start()]: proofs *)

(** The stdout listener against [is_ready_chunk]: a chunk that is not a
    readiness signal only prints. *)
Lemma onStdoutData_calm (rev : revision) (data : string) (mc : machine) :
  is_ready_chunk rev data = false ->
  state_of (onStdoutData rev data mc) = state_of mc.
Proof.
  unfold is_ready_chunk, onStdoutData. intros H.
  destruct rev.
  - rewrite H. reflexivity.
  - destruct (includes data "initializing"); [reflexivity|].
    cbn [negb andb] in H. rewrite H. reflexivity.
Qed.

(** A chunk that is a readiness signal runs [ready_branch]. *)
Lemma onStdoutData_ready (rev : revision) (data : string) (mc : machine) :
  is_ready_chunk rev data = true ->
  onStdoutData rev data mc
    = ready_branch (match_localhost_port data) (console_log ("[Backend] " ++ data) mc).
Proof.
  unfold is_ready_chunk, onStdoutData. intros H.
  destruct rev.
  - rewrite H. reflexivity.
  - destruct (includes data "initializing"); [discriminate|].
    cbn [negb andb] in H. rewrite H. reflexivity.
Qed.

(** The three places that settle the promise, in closed form. *)
Lemma ready_branch_eq (portMatch : option string) (mc : machine) :
  ready_branch portMatch mc =
  {| this := {| process := process (this mc);
                port := effective_port portMatch (port (this mc));
                isReady := true |};
     promise := match promise mc with
                | Pending => Fulfilled (effective_port portMatch (port (this mc)))
                | s => s
                end;
     settled_at := match promise mc with
                   | Pending => Some (clock mc)
                   | _ => settled_at mc
                   end;
     timer := None; listening := listening mc; clock := clock mc;
     log := (log mc ++ [ClearTimeout;
                        ResolveCall (effective_port portMatch (port (this mc)))])%list |}.
Proof.
  destruct mc as [[pr po re] p s ti l c lg].
  destruct portMatch, p; unfold_listeners; cbn; rewrite <- ?app_assoc; reflexivity.
Qed.

Lemma onError_eq (err_message : string) (mc : machine) :
  onError err_message mc =
  {| this := this mc;
     promise := match promise mc with
                | Pending => Rejected (Error ("Failed to start backend: " ++ err_message))
                | s => s
                end;
     settled_at := match promise mc with
                   | Pending => Some (clock mc)
                   | _ => settled_at mc
                   end;
     timer := None; listening := listening mc; clock := clock mc;
     log := (log mc ++ [ClearTimeout;
                        RejectCall (Error ("Failed to start backend: " ++ err_message))])%list |}.
Proof.
  destruct mc as [[pr po re] p s ti l c lg].
  destruct p; unfold_listeners; cbn; rewrite <- ?app_assoc; reflexivity.
Qed.

Lemma fire_timer_eq (rev : revision) (d : Z) (mc : machine) :
  fire_timer rev d mc =
  {| this := this mc;
     promise := match promise mc with
                | Pending => Rejected (timeout_error rev)
                | s => s
                end;
     settled_at := match promise mc with
                   | Pending => Some d
                   | _ => settled_at mc
                   end;
     timer := None; listening := listening mc; clock := d;
     log := (log mc ++ [RejectCall (timeout_error rev)])%list |}.
Proof.
  destruct mc as [[pr po re] p s ti l c lg].
  destruct p; unfold fire_timer; unfold_listeners; cbn; reflexivity.
Qed.

Lemma step_eq (rev : revision) (mc : machine) (t : Z) (ev : event) :
  listening mc = true ->
  step rev mc (t, ev) = dispatch rev ev (due rev t mc).
Proof. intros Hl. unfold step, due. rewrite Hl. reflexivity. Qed.

Lemma due_eq (rev : revision) (t : Z) (mc : machine) :
  due rev t mc =
  match timer mc with
  | Some d => if d <=? t then at_time t (fire_timer rev d mc) else at_time t mc
  | None => at_time t mc
  end.
Proof.
  unfold due, fire_if_due. destruct (timer mc) as [d|]; [|reflexivity].
  destruct (d <=? t); reflexivity.
Qed.

Lemma this_due (rev : revision) (t : Z) (mc : machine) :
  this (due rev t mc) = this mc.
Proof.
  rewrite due_eq. destruct (timer mc) as [d|]; [|reflexivity].
  destruct (d <=? t); [rewrite fire_timer_eq|]; reflexivity.
Qed.

Lemma listening_due (rev : revision) (t : Z) (mc : machine) :
  listening (due rev t mc) = listening mc.
Proof.
  rewrite due_eq. destruct (timer mc) as [d|]; [|reflexivity].
  destruct (d <=? t); [rewrite fire_timer_eq|]; reflexivity.
Qed.

(** What one listener call does to each field. *)
Lemma this_dispatch (rev : revision) (ev : event) (mc : machine) :
  this (dispatch rev ev mc) =
  match ev with
  | StdoutData data =>
      if is_ready_chunk rev data
      then {| process := process (this mc);
              port := effective_port (match_localhost_port data) (port (this mc));
              isReady := true |}
      else this mc
  | ChildExit _ => set_isReady false (this mc)
  | StderrData _ | ChildError _ => this mc
  end.
Proof.
  destruct ev as [data|data|msg|code]; cbn [dispatch].
  - destruct (is_ready_chunk rev data) eqn:Hr.
    + rewrite (onStdoutData_ready _ _ _ Hr), ready_branch_eq. reflexivity.
    + exact (f_equal this (onStdoutData_calm rev data mc Hr)).
  - reflexivity.
  - rewrite onError_eq. reflexivity.
  - reflexivity.
Qed.

Lemma listening_dispatch (rev : revision) (ev : event) (mc : machine) :
  listening (dispatch rev ev mc) = listening mc.
Proof.
  destruct ev as [data|data|msg|code]; cbn [dispatch].
  - destruct (is_ready_chunk rev data) eqn:Hr.
    + rewrite (onStdoutData_ready _ _ _ Hr), ready_branch_eq. reflexivity.
    + exact (f_equal listening (onStdoutData_calm rev data mc Hr)).
  - reflexivity.
  - rewrite onError_eq. reflexivity.
  - reflexivity.
Qed.

Lemma settled_dispatch (rev : revision) (ev : event) (mc : machine) :
  promise mc <> Pending ->
  promise (dispatch rev ev mc) = promise mc /\
  settled_at (dispatch rev ev mc) = settled_at mc.
Proof.
  intros Hp.
  destruct ev as [data|data|msg|code]; cbn [dispatch].
  - destruct (is_ready_chunk rev data) eqn:Hr.
    + rewrite (onStdoutData_ready _ _ _ Hr), ready_branch_eq.
      cbn [promise settled_at console_log do_effects].
      destruct (promise mc); [congruence| |]; split; reflexivity.
    + pose proof (onStdoutData_calm rev data mc Hr) as Hs.
      split; [exact (f_equal promise Hs) | exact (f_equal settled_at Hs)].
  - split; reflexivity.
  - rewrite onError_eq. cbn [promise settled_at].
    destruct (promise mc); [congruence| |]; split; reflexivity.
  - split; reflexivity.
Qed.


(** [this.isReady] after one event. *)
Lemma isReady_step (rev : revision) (mc : machine) (tev : Z * event) :
  listening mc = true ->
  isReady (this (step rev mc tev)) =
  match snd tev with
  | ChildExit _ => false
  | StdoutData data => is_ready_chunk rev data || isReady (this mc)
  | _ => isReady (this mc)
  end.
Proof.
  intros Hl. destruct tev as [t ev]. cbn [snd].
  rewrite (step_eq rev mc t ev Hl), this_dispatch, this_due.
  destruct ev as [data|data|msg|code]; try reflexivity.
  destruct (is_ready_chunk rev data); reflexivity.
Qed.

Lemma listening_step (rev : revision) (mc : machine) (tev : Z * event) :
  listening (step rev mc tev) = listening mc.
Proof.
  destruct (listening mc) eqn:Hl.
  - destruct tev as [t ev].
    rewrite (step_eq rev mc t ev Hl), listening_dispatch, listening_due. exact Hl.
  - unfold step. rewrite Hl. exact Hl.
Qed.

(** A promise that has settled keeps its value and its time. *)
Lemma settled_step (rev : revision) (mc : machine) (tev : Z * event) :
  promise mc <> Pending ->
  promise (step rev mc tev) = promise mc /\
  settled_at (step rev mc tev) = settled_at mc.
Proof.
  intros Hp.
  destruct (listening mc) eqn:Hl; [|unfold step; rewrite Hl; split; reflexivity].
  destruct tev as [t ev]. rewrite (step_eq rev mc t ev Hl).
  assert (Hdue : promise (due rev t mc) = promise mc /\
                 settled_at (due rev t mc) = settled_at mc).
  { rewrite due_eq. destruct (timer mc) as [d|]; [|split; reflexivity].
    destruct (d <=? t); [rewrite fire_timer_eq|]; cbn [at_time promise settled_at];
      [|split; reflexivity].
    destruct (promise mc); [congruence| |]; split; reflexivity. }
  destruct Hdue as [H1 H2].
  destruct (settled_dispatch rev ev (due rev t mc)) as [H3 H4];
    [rewrite H1; exact Hp|].
  rewrite H3, H4. split; assumption.
Qed.

Lemma settled_run (rev : revision) (evs : list (Z * event)) (mc : machine) :
  promise mc <> Pending ->
  promise (run rev evs mc) = promise mc /\
  settled_at (run rev evs mc) = settled_at mc.
Proof.
  revert mc. induction evs as [|tev evs IH]; intros mc Hp; [split; reflexivity|].
  unfold run in *. cbn [fold_left].
  destruct (settled_step rev mc tev Hp) as [H1 H2].
  destruct (IH (step rev mc tev)) as [H3 H4]; [rewrite H1; exact Hp|].
  rewrite H3, H4. split; assumption.
Qed.

Lemma settled_quiesce (rev : revision) (mc : machine) :
  promise mc <> Pending ->
  promise (quiesce rev mc) = promise mc /\
  settled_at (quiesce rev mc) = settled_at mc.
Proof.
  intros Hp. unfold quiesce.
  destruct (timer mc); [|split; reflexivity].
  rewrite fire_timer_eq. cbn [promise settled_at].
  destruct (promise mc); [congruence| |]; split; reflexivity.
Qed.

(** A calm event before the delay is over leaves [start()] waiting, and
    the port and the child handle as they are. *)
Lemma waiting_step_calm (rev : revision) (d : Z) (mc : machine) (tev : Z * event) :
  waiting d mc ->
  calm_before rev d tev = true ->
  waiting d (step rev mc tev) /\
  port (this (step rev mc tev)) = port (this mc) /\
  process (this (step rev mc tev)) = process (this mc).
Proof.
  intros (Hl & Hp & Ht) Hc. unfold calm_before in Hc.
  apply andb_prop in Hc. destruct Hc as [Hlt Hc].
  unfold step. rewrite Hl. unfold fire_if_due. rewrite Ht.
  replace (d <=? fst tev) with false by (symmetry; apply Z.leb_gt, Z.ltb_lt; exact Hlt).
  unfold waiting.
  destruct tev as [t [data|data|msg|code]]; cbn [fst snd dispatch calm] in *.
  - apply negb_true_iff in Hc.
    pose proof (onStdoutData_calm rev data (at_time t mc) Hc) as Hs.
    pose proof (f_equal listening Hs) as H1.
    pose proof (f_equal promise Hs) as H2.
    pose proof (f_equal timer Hs) as H3.
    pose proof (f_equal this Hs) as H4.
    cbn [state_of listening promise timer this at_time] in H1, H2, H3, H4.
    rewrite H1, H2, H3, H4. repeat split; assumption.
  - cbn. repeat split; assumption.
  - discriminate.
  - cbn. repeat split; assumption.
Qed.

Lemma waiting_run_calm (rev : revision) (d : Z) (evs : list (Z * event)) :
  forall mc,
    waiting d mc ->
    forallb (calm_before rev d) evs = true ->
    waiting d (run rev evs mc) /\
    port (this (run rev evs mc)) = port (this mc) /\
    process (this (run rev evs mc)) = process (this mc).
Proof.
  induction evs as [|tev evs IH]; intros mc Hw Hc.
  - repeat split; try reflexivity; apply Hw.
  - cbn [forallb] in Hc. apply andb_prop in Hc. destruct Hc as [Hc1 Hc2].
    destruct (waiting_step_calm rev d mc tev Hw Hc1) as (Hw' & Hport & Hproc).
    destruct (IH (step rev mc tev) Hw' Hc2) as (Hw'' & Hport' & Hproc').
    unfold run in *. cbn [fold_left].
    rewrite Hport', Hproc'. repeat split; try assumption; apply Hw''.
Qed.

(** ** [start()]: proofs *)

(** The executor once a port is allocated and the executable is in place
    (or not looked for): the child is spawned on the resolved path with
    the argument list of the revision and piped stdio, the handle is
    stored, the timer armed, and [start()] waits. *)
Lemma start_executor_spawned (rev : revision) (h : host) (m : manager) (p : Z) :
  fst (findAvailablePort h DEFAULT_PORT MAX_PORT_ATTEMPTS) = Returns p ->
  reaches_spawn rev h = true ->
  waiting (STARTUP_TIMEOUT_MS rev) (start_executor rev h m) /\
  this (start_executor rev h m)
    = {| process := Some {| pid := spawn_pid h |}; port := p; isReady := isReady m |} /\
  spawns (log (start_executor rev h m))
    = [Spawn (getBackendPath h) (spawn_args rev p) stdio_pipes true] /\
  clock (start_executor rev h m) = 0.
Proof.
  intros Hp Hs. unfold start_executor.
  pose proof (spawns_findAvailablePort h DEFAULT_PORT MAX_PORT_ATTEMPTS) as Hsp.
  destruct (findAvailablePort h DEFAULT_PORT MAX_PORT_ATTEMPTS) as [[p'|e] tr];
    cbn [fst snd] in *; [|discriminate].
  injection Hp as ->.
  unfold reaches_spawn, spawn_returns in Hs. apply andb_prop in Hs.
  destruct Hs as [Hcheck Hret].
  unfold spawn_and_listen.
  destruct (spawn_throws h); [discriminate|].
  destruct rev; cbn [passes_check] in Hcheck; rewrite ?Hcheck; cbn;
    unfold waiting; cbn; rewrite ?app_nil_r, !spawns_app, Hsp; cbn;
    repeat split; reflexivity.
Qed.

(** The later revision with the executable missing: the promise is
    rejected with the not-found error and [spawn] is never called. *)
Lemma start_executor_not_found (h : host) (m : manager) (p : Z) :
  fst (findAvailablePort h DEFAULT_PORT MAX_PORT_ATTEMPTS) = Returns p ->
  fs_existsSync h (getBackendPath h) = false ->
  listening (start_executor preload_js h m) = false /\
  promise (start_executor preload_js h m)
    = Rejected (Error (not_found_message h (getBackendPath h))) /\
  spawns (log (start_executor preload_js h m)) = [] /\
  process (this (start_executor preload_js h m)) = process m.
Proof.
  intros Hp Hs. unfold start_executor.
  pose proof (spawns_findAvailablePort h DEFAULT_PORT MAX_PORT_ATTEMPTS) as Hsp.
  destruct (findAvailablePort h DEFAULT_PORT MAX_PORT_ATTEMPTS) as [[p'|e] tr];
    cbn [fst snd] in *; [|discriminate].
  rewrite Hs. cbn. rewrite !spawns_app, Hsp. repeat split; reflexivity.
Qed.

(** The [spawn] calls of the executor: one, once a port is allocated and
    the check, where there is one, is passed; whether [spawn] then returns
    or throws. *)
Lemma spawns_start_executor (rev : revision) (h : host) (m : manager) :
  spawns (log (start_executor rev h m))
  = match fst (findAvailablePort h DEFAULT_PORT MAX_PORT_ATTEMPTS) with
    | Returns p =>
        if passes_check rev h
        then [Spawn (getBackendPath h) (spawn_args rev p) stdio_pipes true]
        else []
    | Throws _ => []
    end.
Proof.
  unfold start_executor, spawn_and_listen.
  pose proof (spawns_findAvailablePort h DEFAULT_PORT MAX_PORT_ATTEMPTS) as Hsp.
  destruct (findAvailablePort h DEFAULT_PORT MAX_PORT_ATTEMPTS) as [[p|e] tr];
    cbn [fst snd] in *.
  - destruct rev; cbn [passes_check];
      [|destruct (fs_existsSync h (getBackendPath h))];
      destruct (spawn_throws h); cbn;
      rewrite ?app_nil_r, !spawns_app, Hsp; reflexivity.
  - cbn. rewrite spawns_app, Hsp. reflexivity.
Qed.

(** The executor when [spawn] throws: the promise is left pending for
    good, no timer is armed, no listener attached, and [this.process] is
    what it was; only [this.port] has been set. *)
Lemma start_executor_spawn_throws (rev : revision) (h : host) (m : manager) (p : Z) :
  fst (findAvailablePort h DEFAULT_PORT MAX_PORT_ATTEMPTS) = Returns p ->
  passes_check rev h = true ->
  spawn_returns h = false ->
  listening (start_executor rev h m) = false /\
  promise (start_executor rev h m) = Pending /\
  settled_at (start_executor rev h m) = None /\
  timer (start_executor rev h m) = None /\
  this (start_executor rev h m) = set_port p m.
Proof.
  intros Hp Hc Hr. unfold start_executor, spawn_and_listen.
  destruct (findAvailablePort h DEFAULT_PORT MAX_PORT_ATTEMPTS) as [[p'|e] tr];
    cbn [fst snd] in *; [|discriminate].
  injection Hp as ->.
  unfold spawn_returns in Hr. destruct (spawn_throws h); [|discriminate].
  destruct rev; cbn [passes_check] in Hc; rewrite ?Hc; cbn; repeat split; reflexivity.
Qed.

Lemma run_app (rev : revision) (evs1 evs2 : list (Z * event)) (mc : machine) :
  run rev (evs1 ++ evs2) mc = run rev evs2 (run rev evs1 mc).
Proof. unfold run. apply fold_left_app. Qed.

(** A readiness chunk that reaches a waiting [start()] before the delay is
    over settles the promise, with the port of the pattern when it
    matched and with [this.port] otherwise. *)
Lemma waiting_step_ready (rev : revision) (d : Z) (mc : machine) (t : Z) (chunk : string) :
  waiting d mc ->
  t < d ->
  is_ready_chunk rev chunk = true ->
  promise (step rev mc (t, StdoutData chunk))
    = Fulfilled (effective_port (match_localhost_port chunk) (port (this mc))) /\
  settled_at (step rev mc (t, StdoutData chunk)) = Some t /\
  timer (step rev mc (t, StdoutData chunk)) = None /\
  port (this (step rev mc (t, StdoutData chunk)))
    = effective_port (match_localhost_port chunk) (port (this mc)).
Proof.
  intros (Hl & Hp & Ht) Hlt Hr.
  rewrite (step_eq rev mc t _ Hl), due_eq, Ht.
  replace (d <=? t) with false by (symmetry; apply Z.leb_gt; exact Hlt).
  cbn [dispatch]. rewrite (onStdoutData_ready _ _ _ Hr), ready_branch_eq.
  cbn [promise settled_at timer this port clock console_log do_effects at_time].
  rewrite Hp. repeat split; reflexivity.
Qed.

Lemma start_first_ready_chunk (rev : revision) (h : host) (m : manager) (p : Z)
  (before : list (Z * event)) (t : Z) (chunk : string) (after : list (Z * event)) :
  fst (findAvailablePort h DEFAULT_PORT MAX_PORT_ATTEMPTS) = Returns p ->
  reaches_spawn rev h = true ->
  forallb (calm_before rev (STARTUP_TIMEOUT_MS rev)) before = true ->
  t < STARTUP_TIMEOUT_MS rev ->
  is_ready_chunk rev chunk = true ->
  promise (start rev h m (before ++ (t, StdoutData chunk) :: after))
    = Fulfilled (effective_port (match_localhost_port chunk) p) /\
  settled_at (start rev h m (before ++ (t, StdoutData chunk) :: after)) = Some t.
Proof.
  intros Hp Hs Hcalm Hlt Hr.
  destruct (start_executor_spawned rev h m p Hp Hs) as (Hw & Hthis & _ & _).
  destruct (waiting_run_calm rev _ before _ Hw Hcalm) as (Hw' & Hport & _).
  rewrite Hthis in Hport. cbn [port] in Hport.
  destruct (waiting_step_ready rev _ _ t chunk Hw' Hlt Hr) as (H1 & H2 & _ & _).
  rewrite Hport in H1.
  unfold start. rewrite run_app.
  change (run rev ((t, StdoutData chunk) :: after) ?x)
    with (run rev after (step rev x (t, StdoutData chunk))).
  set (mc1 := step rev (run rev before (start_executor rev h m)) (t, StdoutData chunk)) in *.
  assert (Hne : promise mc1 <> Pending) by (rewrite H1; discriminate).
  destruct (settled_run rev after mc1 Hne) as [H3 H4].
  assert (Hne' : promise (run rev after mc1) <> Pending) by (rewrite H3; exact Hne).
  destruct (settled_quiesce rev _ Hne') as [H5 H6].
  rewrite H5, H6, H3, H4. split; assumption.
Qed.

(** No listener and no timer touches [this.process]. *)
Lemma process_step (rev : revision) (mc : machine) (tev : Z * event) :
  process (this (step rev mc tev)) = process (this mc).
Proof.
  destruct (listening mc) eqn:Hl; [|unfold step; rewrite Hl; reflexivity].
  destruct tev as [t ev].
  rewrite (step_eq rev mc t ev Hl), this_dispatch, this_due.
  destruct ev as [data|data|msg|code]; try reflexivity.
  destruct (is_ready_chunk rev data); reflexivity.
Qed.

Lemma process_run (rev : revision) (evs : list (Z * event)) (mc : machine) :
  process (this (run rev evs mc)) = process (this mc).
Proof.
  revert mc. induction evs as [|tev evs IH]; intros mc; [reflexivity|].
  unfold run in *. cbn [fold_left]. rewrite IH. apply process_step.
Qed.

Lemma process_quiesce (rev : revision) (mc : machine) :
  process (this (quiesce rev mc)) = process (this mc).
Proof.
  unfold quiesce. destruct (timer mc); [rewrite fire_timer_eq|]; reflexivity.
Qed.

(** The timer callback on a waiting [start()]. *)
Lemma waiting_fire_timer (rev : revision) (d : Z) (mc : machine) :
  waiting d mc ->
  promise (fire_timer rev d mc) = Rejected (timeout_error rev) /\
  settled_at (fire_timer rev d mc) = Some d /\
  timer (fire_timer rev d mc) = None /\
  listening (fire_timer rev d mc) = true.
Proof.
  intros (Hl & Hp & Ht). rewrite fire_timer_eq. cbn [promise settled_at timer listening].
  rewrite Hp. repeat split; try reflexivity. exact Hl.
Qed.

(** An event that comes when the delay is over finds the promise rejected
    by the timer. *)
Lemma waiting_step_late (rev : revision) (d : Z) (mc : machine) (tev : Z * event) :
  waiting d mc ->
  d <= fst tev ->
  promise (step rev mc tev) = Rejected (timeout_error rev) /\
  settled_at (step rev mc tev) = Some d.
Proof.
  intros Hw Hlate.
  destruct (waiting_fire_timer rev d mc Hw) as (Hp & Hs & Ht & Hl).
  assert (Heq : step rev mc tev = step rev (fire_timer rev d mc) tev).
  { destruct Hw as (Hl0 & _ & Ht0).
    unfold step. rewrite Hl0, Hl. unfold fire_if_due. rewrite Ht0, Ht.
    replace (d <=? fst tev) with true by (symmetry; apply Z.leb_le; exact Hlate).
    reflexivity. }
  rewrite Heq.
  destruct (settled_step rev (fire_timer rev d mc) tev) as [H1 H2].
  - rewrite Hp. discriminate.
  - rewrite H1, H2. split; assumption.
Qed.

(** With only calm events before the delay is over, [start()] ends
    rejected by the timer, at the delay. *)
Lemma waiting_times_out (rev : revision) (d : Z) (evs : list (Z * event)) :
  forall mc,
    waiting d mc ->
    forallb (calm_or_late rev d) evs = true ->
    promise (quiesce rev (run rev evs mc)) = Rejected (timeout_error rev) /\
    settled_at (quiesce rev (run rev evs mc)) = Some d.
Proof.
  induction evs as [|tev evs IH]; intros mc Hw Hc.
  - cbn [run fold_left]. unfold quiesce.
    destruct (waiting_fire_timer rev d mc Hw) as (Hp & Hs & _ & _).
    destruct Hw as (_ & _ & Ht). rewrite Ht. split; assumption.
  - cbn [forallb] in Hc. apply andb_prop in Hc. destruct Hc as [Hc1 Hc2].
    change (run rev (tev :: evs) mc) with (run rev evs (step rev mc tev)).
    destruct (Z_lt_ge_dec (fst tev) d) as [Hlt|Hge].
    + apply IH; [|exact Hc2].
      apply (waiting_step_calm rev d mc tev Hw).
      unfold calm_or_late in Hc1. unfold calm_before.
      replace (d <=? fst tev) with false in Hc1 by (symmetry; apply Z.leb_gt; exact Hlt).
      replace (fst tev <? d) with true by (symmetry; apply Z.ltb_lt; exact Hlt).
      exact Hc1.
    + destruct (waiting_step_late rev d mc tev Hw) as [H1 H2]; [lia|].
      assert (Hne : promise (step rev mc tev) <> Pending) by (rewrite H1; discriminate).
      destruct (settled_run rev evs _ Hne) as [H3 H4].
      assert (Hne' : promise (run rev evs (step rev mc tev)) <> Pending)
        by (rewrite H3; exact Hne).
      destruct (settled_quiesce rev _ Hne') as [H5 H6].
      rewrite H5, H6, H3, H4. split; assumption.
Qed.

(** *** The port announced in the output *)

(** C4, as stated, fails.  A chunk containing
    "Running on http://localhost:7899" arrives before the timeout and
    [start()] does not resolve with 7899: (1) in the later revision an
    earlier "Launching Gradio" chunk has already resolved the promise with
    the allocated port 7861; (2) in the later revision a chunk that also
    contains "initializing" is only logged, and the timer rejects; (3) in
    both revisions the capture is greedy, so a chunk going on with a digit
    resolves with 78990. *)
Lemma start_7899_chunk_other_outcome :
  promise (start preload_js Examples.host_ok constructor
             [(100, StdoutData "Launching Gradio");
              (200, StdoutData "Running on http://localhost:7899")])
    = Fulfilled 7861 /\
  (includes "Backend initializing. Running on http://localhost:7899"
            "Running on http://localhost:7899" = true /\
   promise (start preload_js Examples.host_ok constructor
              [(100, StdoutData "Backend initializing. Running on http://localhost:7899")])
     = Rejected (Error "Backend startup timeout (60s)")) /\
  (includes "Running on http://localhost:78990"
            "Running on http://localhost:7899" = true /\
   promise (start backend_manager_js Examples.host_ok constructor
              [(100, StdoutData "Running on http://localhost:78990")])
     = Fulfilled 78990 /\
   promise (start preload_js Examples.host_ok constructor
              [(100, StdoutData "Running on http://localhost:78990")])
     = Fulfilled 78990).
Proof. vm_compute. repeat split; reflexivity. Qed.

(** C4, amended.  In both revisions, when [start()] has spawned the child
    and the first readiness signal, arriving before the timeout and before
    any 'error' event, is a chunk whose leftmost [localhost:<digits>]
    occurrence captures exactly 7899 (and which, in the later revision,
    does not contain "initializing"), the promise of [start()] is
    fulfilled with 7899 at the arrival of that chunk, whatever port [p]
    was allocated and whatever follows. *)
Theorem start_resolves_with_announced_port (rev : revision) (h : host) (m : manager)
  (p : Z) (before : list (Z * event)) (t : Z) (chunk : string)
  (after : list (Z * event)) :
  fst (findAvailablePort h DEFAULT_PORT MAX_PORT_ATTEMPTS) = Returns p ->
  reaches_spawn rev h = true ->
  forallb (calm_before rev (STARTUP_TIMEOUT_MS rev)) before = true ->
  t < STARTUP_TIMEOUT_MS rev ->
  (rev = preload_js -> includes chunk "initializing" = false) ->
  match_localhost_port chunk = Some "7899" ->
  promise (start rev h m (before ++ (t, StdoutData chunk) :: after)) = Fulfilled 7899 /\
  settled_at (start rev h m (before ++ (t, StdoutData chunk) :: after)) = Some t.
Proof.
  intros Hp Hs Hcalm Hlt Hinit Hmatch.
  assert (Hr : is_ready_chunk rev chunk = true).
  { unfold is_ready_chunk. rewrite Hmatch. cbn [truthy].
    destruct rev; [apply orb_true_r|].
    rewrite (Hinit eq_refl). cbn [negb andb]. apply orb_true_r. }
  pose proof (start_first_ready_chunk rev h m p before t chunk after
                Hp Hs Hcalm Hlt Hr) as H.
  rewrite Hmatch in H. exact H.
Qed.

Lemma start_resolves_with_announced_port_witness :
  fst (findAvailablePort Examples.host_two_taken DEFAULT_PORT MAX_PORT_ATTEMPTS)
    = Returns 7863 /\
  promise (start preload_js Examples.host_two_taken constructor
             ([(50, StderrData "warming up"); (60, StdoutData "Loading model")]
              ++ (100, StdoutData "Running on http://localhost:7899")
              :: [(300, ChildExit (Some 0))]))
    = Fulfilled 7899 /\
  settled_at (start preload_js Examples.host_two_taken constructor
                ([(50, StderrData "warming up"); (60, StdoutData "Loading model")]
                 ++ (100, StdoutData "Running on http://localhost:7899")
                 :: [(300, ChildExit (Some 0))]))
    = Some 100.
Proof.
  split; [reflexivity|].
  apply (start_resolves_with_announced_port preload_js Examples.host_two_taken
           constructor 7863
           [(50, StderrData "warming up"); (60, StdoutData "Loading model")]
           100 "Running on http://localhost:7899" [(300, ChildExit (Some 0))]).
  - reflexivity.
  - reflexivity.
  - reflexivity.
  - reflexivity.
  - intros _. reflexivity.
  - reflexivity.
Defined.

(** C10, as stated, fails in the later revision: a chunk that contains
    "Running on" and no [localhost:<digits>], but also "initializing", is
    not taken as a readiness signal; the promise stays pending until the
    timer rejects it. *)
Lemma start_running_on_chunk_ignored :
  includes "Backend initializing. Running on http://127.0.0.1:7861" "Running on" = true /\
  match_localhost_port "Backend initializing. Running on http://127.0.0.1:7861" = None /\
  is_ready_chunk preload_js "Backend initializing. Running on http://127.0.0.1:7861" = false /\
  promise (run preload_js
             [(100, StdoutData "Backend initializing. Running on http://127.0.0.1:7861")]
             (start_executor preload_js Examples.host_ok constructor))
    = Pending /\
  promise (start preload_js Examples.host_ok constructor
             [(100, StdoutData "Backend initializing. Running on http://127.0.0.1:7861")])
    = Rejected (Error "Backend startup timeout (60s)").
Proof. vm_compute. repeat split; reflexivity. Qed.

(** C10, amended.  In both revisions, when [start()] has spawned the
    child and the first readiness signal, arriving before the timeout and
    before any 'error' event, is a chunk that contains "Running on" and
    matches no [localhost:<digits>] (and which, in the later revision,
    does not contain "initializing"), the listener takes it as a readiness
    signal and the promise of [start()] is fulfilled with the allocated
    port [p], unchanged. *)
Theorem start_running_on_keeps_allocated_port (rev : revision) (h : host) (m : manager)
  (p : Z) (before : list (Z * event)) (t : Z) (chunk : string)
  (after : list (Z * event)) :
  fst (findAvailablePort h DEFAULT_PORT MAX_PORT_ATTEMPTS) = Returns p ->
  reaches_spawn rev h = true ->
  forallb (calm_before rev (STARTUP_TIMEOUT_MS rev)) before = true ->
  t < STARTUP_TIMEOUT_MS rev ->
  (rev = preload_js -> includes chunk "initializing" = false) ->
  includes chunk "Running on" = true ->
  match_localhost_port chunk = None ->
  is_ready_chunk rev chunk = true /\
  promise (start rev h m (before ++ (t, StdoutData chunk) :: after)) = Fulfilled p /\
  settled_at (start rev h m (before ++ (t, StdoutData chunk) :: after)) = Some t /\
  port (this (run rev (before ++ [(t, StdoutData chunk)]) (start_executor rev h m))) = p.
Proof.
  intros Hp Hs Hcalm Hlt Hinit Hrun Hmatch.
  assert (Hr : is_ready_chunk rev chunk = true).
  { unfold is_ready_chunk. rewrite Hrun.
    destruct rev; [reflexivity|].
    rewrite (Hinit eq_refl). reflexivity. }
  split; [exact Hr|].
  pose proof (start_first_ready_chunk rev h m p before t chunk after
                Hp Hs Hcalm Hlt Hr) as H.
  rewrite Hmatch in H. cbn [effective_port] in H.
  destruct H as [H1 H2]. split; [exact H1|]. split; [exact H2|].
  destruct (start_executor_spawned rev h m p Hp Hs) as (Hw & Hthis & _ & _).
  destruct (waiting_run_calm rev _ before _ Hw Hcalm) as ((Hl & Hpend & Htimer) & Hport & _).
  rewrite Hthis in Hport. cbn [port] in Hport.
  rewrite run_app.
  change (run rev [(t, StdoutData chunk)] ?x) with (step rev x (t, StdoutData chunk)).
  destruct (waiting_step_ready rev _ _ t chunk (conj Hl (conj Hpend Htimer)) Hlt Hr)
    as (_ & _ & _ & Hport').
  rewrite Hport', Hmatch. exact Hport.
Qed.

Lemma start_running_on_keeps_allocated_port_witness :
  fst (findAvailablePort Examples.host_two_taken DEFAULT_PORT MAX_PORT_ATTEMPTS)
    = Returns 7863 /\
  promise (start backend_manager_js Examples.host_two_taken constructor
             ([(40, StdoutData "Loading model")]
              ++ (900, StdoutData "* Running on all addresses (0.0.0.0)")
              :: [(950, StdoutData "Running on http://localhost:7899")]))
    = Fulfilled 7863.
Proof.
  split; [reflexivity|].
  apply (start_running_on_keeps_allocated_port backend_manager_js
           Examples.host_two_taken constructor 7863
           [(40, StdoutData "Loading model")]
           900 "* Running on all addresses (0.0.0.0)"
           [(950, StdoutData "Running on http://localhost:7899")]).
  - reflexivity.
  - reflexivity.
  - reflexivity.
  - reflexivity.
  - intros H. discriminate H.
  - reflexivity.
  - reflexivity.
Defined.

(** *** The startup timer *)

(** C5, as stated, fails.  No readiness signal is observed and [start()]
    does not fail with the timeout error after 60 seconds: (1) in the later
    revision a child 'error' event rejects the promise at once, with the
    spawn error; (2) [backend-manager.js] arms its timer for 30 seconds. *)
Lemma start_without_readiness_other_failure :
  (promise (start preload_js Examples.host_ok constructor
              [(5, ChildError "spawn EACCES")])
     = Rejected (Error "Failed to start backend: spawn EACCES") /\
   settled_at (start preload_js Examples.host_ok constructor
                 [(5, ChildError "spawn EACCES")]) = Some 5) /\
  (promise (start backend_manager_js Examples.host_ok constructor [])
     = Rejected (Error "Backend startup timeout (30s)") /\
   settled_at (start backend_manager_js Examples.host_ok constructor [])
     = Some 30000).
Proof. vm_compute. repeat split; reflexivity. Qed.

(** C5, amended.  When [start()] has spawned the child and every event
    delivered before the delay of the timer is over is neither a readiness
    signal nor an 'error' event, the promise of [start()] is rejected with
    the timeout error exactly when that delay is over; the delay is 60000
    ms, with the message "Backend startup timeout (60s)", in the later
    revision, and 30000 ms, with "(30s)", in [backend-manager.js]. *)
Theorem start_times_out_after_fixed_delay (rev : revision) (h : host) (m : manager)
  (p : Z) (evs : list (Z * event)) :
  fst (findAvailablePort h DEFAULT_PORT MAX_PORT_ATTEMPTS) = Returns p ->
  reaches_spawn rev h = true ->
  forallb (calm_or_late rev (STARTUP_TIMEOUT_MS rev)) evs = true ->
  promise (start rev h m evs) = Rejected (timeout_error rev) /\
  settled_at (start rev h m evs) = Some (STARTUP_TIMEOUT_MS rev) /\
  STARTUP_TIMEOUT_MS rev
    = match rev with preload_js => 60000 | backend_manager_js => 30000 end /\
  timeout_error rev
    = match rev with
      | preload_js => Error "Backend startup timeout (60s)"
      | backend_manager_js => Error "Backend startup timeout (30s)"
      end.
Proof.
  intros Hp Hs Hc.
  destruct (start_executor_spawned rev h m p Hp Hs) as (Hw & _).
  destruct (waiting_times_out rev _ evs _ Hw Hc) as [H1 H2].
  unfold start. split; [exact H1|]. split; [exact H2|].
  destruct rev; split; reflexivity.
Qed.

Lemma start_times_out_after_fixed_delay_witness :
  promise (start preload_js Examples.host_ok constructor
             [(10, StdoutData "Loading model"); (20, StderrData "warning");
              (70000, StdoutData "Running on http://localhost:7861")])
    = Rejected (Error "Backend startup timeout (60s)") /\
  settled_at (start preload_js Examples.host_ok constructor
                [(10, StdoutData "Loading model"); (20, StderrData "warning");
                 (70000, StdoutData "Running on http://localhost:7861")])
    = Some 60000.
Proof.
  refine (let H := start_times_out_after_fixed_delay preload_js Examples.host_ok constructor
                7861
                [(10, StdoutData "Loading model"); (20, StderrData "warning");
                 (70000, StdoutData "Running on http://localhost:7861")]
                _ _ _ in conj (proj1 H) (proj1 (proj2 H)));
    vm_compute; reflexivity.
Defined.

(** C7, as stated, fails.  A child that writes nothing lets the timer
    reject [start()], but the handle of the child stays in
    [this.process]; a [stop()] after it is no no-op: it sends SIGTERM to
    the tree of pid 4242 and changes the state. *)
Lemma start_timeout_leaves_handle :
  promise (start preload_js Examples.host_ok constructor [])
    = Rejected (Error "Backend startup timeout (60s)") /\
  process (this (start preload_js Examples.host_ok constructor []))
    = Some {| pid := Some 4242 |} /\
  snd (fst (stop Examples.host_ok (this (start preload_js Examples.host_ok constructor []))))
    = [TreeKill (Some 4242) "SIGTERM"] /\
  fst (fst (stop Examples.host_ok (this (start preload_js Examples.host_ok constructor []))))
    <> this (start preload_js Examples.host_ok constructor []).
Proof. vm_compute. repeat split; try reflexivity. discriminate. Qed.

(** C7, amended.  When [start()] has spawned the child and the child
    delivers neither a readiness signal nor an 'error' event before the
    delay of the timer is over (in particular when it writes nothing), the
    promise of [start()] is rejected with the timeout error, and the
    handle of the spawned child remains in [this.process]: the timer
    callback only rejects.  A [stop()] after it therefore sends the
    tree-wide SIGTERM to that child, and it is this [stop()] that clears
    the handle. *)
Theorem start_timeout_keeps_handle_until_stop (rev : revision) (h : host) (m : manager)
  (p : Z) (evs : list (Z * event)) :
  fst (findAvailablePort h DEFAULT_PORT MAX_PORT_ATTEMPTS) = Returns p ->
  reaches_spawn rev h = true ->
  forallb (calm_or_late rev (STARTUP_TIMEOUT_MS rev)) evs = true ->
  promise (start rev h m evs) = Rejected (timeout_error rev) /\
  process (this (start rev h m evs)) = Some {| pid := spawn_pid h |} /\
  filter is_tree_kill (snd (fst (stop h (this (start rev h m evs)))))
    = [TreeKill (spawn_pid h) "SIGTERM"] /\
  process (fst (fst (stop h (this (start rev h m evs))))) = None /\
  snd (stop h (this (start rev h m evs))) = StopFulfilled.
Proof.
  intros Hp Hs Hc.
  destruct (start_executor_spawned rev h m p Hp Hs) as (Hw & Hthis & _ & _).
  destruct (waiting_times_out rev _ evs _ Hw Hc) as [H1 _].
  assert (Hproc : process (this (start rev h m evs)) = Some {| pid := spawn_pid h |}).
  { unfold start. rewrite process_quiesce, process_run, Hthis. reflexivity. }
  split; [exact H1|]. split; [exact Hproc|].
  unfold stop. rewrite Hproc. cbn.
  destruct (tree_kill h (spawn_pid h) "SIGTERM"); cbn; repeat split; reflexivity.
Qed.

Lemma start_timeout_keeps_handle_until_stop_witness :
  promise (start backend_manager_js Examples.host_kill_fails constructor
             [(12, StderrData "Traceback")])
    = Rejected (Error "Backend startup timeout (30s)") /\
  process (this (start backend_manager_js Examples.host_kill_fails constructor
                   [(12, StderrData "Traceback")]))
    = Some {| pid := Some 4242 |}.
Proof.
  refine (let H := start_timeout_keeps_handle_until_stop backend_manager_js
                Examples.host_kill_fails constructor 7861
                [(12, StderrData "Traceback")] _ _ _ in
          conj (proj1 H) (proj1 (proj2 H)));
    vm_compute; reflexivity.
Defined.

(** *** The existence check and the arguments of [spawn] *)

Lemma spawns_dispatch (rev : revision) (ev : event) (mc : machine) :
  spawns (log (dispatch rev ev mc)) = spawns (log mc).
Proof.
  destruct ev as [data|data|msg|code]; cbn [dispatch].
  - destruct (is_ready_chunk rev data) eqn:Hr.
    + rewrite (onStdoutData_ready _ _ _ Hr), ready_branch_eq.
      cbn [log console_log do_effects]. rewrite !spawns_app. cbn. rewrite !app_nil_r.
      reflexivity.
    + unfold is_ready_chunk in Hr. unfold onStdoutData, console_log, do_effects.
      destruct rev.
      * rewrite Hr. cbn [log]. rewrite spawns_app. apply app_nil_r.
      * destruct (includes data "initializing").
        -- cbn [log]. rewrite !spawns_app. cbn. rewrite !app_nil_r. reflexivity.
        -- cbn [negb andb] in Hr. rewrite Hr. cbn [log]. rewrite spawns_app.
           apply app_nil_r.
  - cbn. rewrite spawns_app. apply app_nil_r.
  - rewrite onError_eq. cbn [log]. rewrite spawns_app. apply app_nil_r.
  - cbn. rewrite spawns_app. apply app_nil_r.
Qed.

Lemma spawns_step (rev : revision) (mc : machine) (tev : Z * event) :
  spawns (log (step rev mc tev)) = spawns (log mc).
Proof.
  destruct (listening mc) eqn:Hl; [|unfold step; rewrite Hl; reflexivity].
  destruct tev as [t ev].
  rewrite (step_eq rev mc t ev Hl), spawns_dispatch, due_eq.
  destruct (timer mc) as [d|]; [|reflexivity].
  destruct (d <=? t); [rewrite fire_timer_eq|]; cbn [at_time log]; [|reflexivity].
  rewrite spawns_app. apply app_nil_r.
Qed.

Lemma spawns_run (rev : revision) (evs : list (Z * event)) (mc : machine) :
  spawns (log (run rev evs mc)) = spawns (log mc).
Proof.
  revert mc. induction evs as [|tev evs IH]; intros mc; [reflexivity|].
  unfold run in *. cbn [fold_left]. rewrite IH. apply spawns_step.
Qed.

Lemma spawns_quiesce (rev : revision) (mc : machine) :
  spawns (log (quiesce rev mc)) = spawns (log mc).
Proof.
  unfold quiesce. destruct (timer mc); [rewrite fire_timer_eq|]; [|reflexivity].
  cbn [log]. rewrite spawns_app. apply app_nil_r.
Qed.

Lemma append_cancel_l (s a b : string) : s ++ a = s ++ b -> a = b.
Proof.
  induction s as [|c s IH]; cbn [String.append]; intros H; [exact H|].
  injection H as H. exact (IH H).
Qed.

(** The remediation hint of the installed application is not the one of
    the development tree. *)
Lemma not_found_hint_differs (h1 h2 : host) (backendPath : string) :
  app_isPackaged h1 = true ->
  app_isPackaged h2 = false ->
  not_found_message h1 backendPath <> not_found_message h2 backendPath.
Proof.
  intros H1 H2 Heq. unfold not_found_message in Heq. rewrite H1, H2 in Heq.
  cbn [negb] in Heq.
  repeat apply append_cancel_l in Heq.
  vm_compute in Heq. discriminate Heq.
Qed.

(** C6, as stated, fails in [backend-manager.js], which has no existence
    check.  With the executable missing (development tree, port 7861
    free) its [start()] calls [spawn] on the missing path all the same;
    the failure the caller sees is the one the child's 'error' event
    brings, not a not-found error with a remediation hint. *)
Lemma backend_manager_js_spawns_missing_executable :
  fs_existsSync (Examples.host_no_backend false)
    (getBackendPath (Examples.host_no_backend false)) = false /\
  spawns (log (start backend_manager_js (Examples.host_no_backend false) constructor
                 [(3, ChildError "spawn backend.exe ENOENT")]))
    = [Spawn "/work/electron-app/src/../../python-dist/backend.exe" ["-u"]
         ["pipe"; "pipe"; "pipe"] true] /\
  promise (start backend_manager_js (Examples.host_no_backend false) constructor
             [(3, ChildError "spawn backend.exe ENOENT")])
    = Rejected (Error "Failed to start backend: spawn backend.exe ENOENT").
Proof. vm_compute. repeat split; reflexivity. Qed.

(** The later revision checks for the executable before spawning: with a
    port allocated and the executable missing, the promise of [start()] is rejected with the
    not-found error, whose hint depends on [app.isPackaged], [spawn] is
    never called and no handle is stored, whatever is delivered
    afterwards. *)
Theorem preload_js_missing_executable (h : host) (m : manager) (p : Z)
  (evs : list (Z * event)) :
  fst (findAvailablePort h DEFAULT_PORT MAX_PORT_ATTEMPTS) = Returns p ->
  fs_existsSync h (getBackendPath h) = false ->
  promise (start preload_js h m evs)
    = Rejected (Error (not_found_message h (getBackendPath h))) /\
  spawns (log (start preload_js h m evs)) = [] /\
  process (this (start preload_js h m evs)) = process m /\
  (forall h', app_isPackaged h' = negb (app_isPackaged h) ->
              not_found_message h' (getBackendPath h)
              <> not_found_message h (getBackendPath h)).
Proof.
  intros Hp He.
  destruct (start_executor_not_found h m p Hp He) as (Hl & Hpr & Hsp & Hproc).
  unfold start. rewrite (run_not_listening _ _ _ Hl).
  assert (Hne : promise (start_executor preload_js h m) <> Pending)
    by (rewrite Hpr; discriminate).
  destruct (settled_quiesce preload_js _ Hne) as [H1 _].
  rewrite H1, spawns_quiesce, process_quiesce.
  repeat split; try assumption.
  intros h' Hh'. destruct (app_isPackaged h) eqn:Hpk; cbn [negb] in Hh'.
  - intros Heq. symmetry in Heq. revert Heq. apply not_found_hint_differs; assumption.
  - apply not_found_hint_differs; assumption.
Qed.

Lemma preload_js_missing_executable_witness :
  promise (start preload_js (Examples.host_no_backend true) constructor
             [(3, StdoutData "Running on http://localhost:7861")])
    = Rejected (Error (not_found_message (Examples.host_no_backend true)
                         "/opt/app/resources/backend/backend.exe")) /\
  spawns (log (start preload_js (Examples.host_no_backend true) constructor
                 [(3, StdoutData "Running on http://localhost:7861")])) = [].
Proof.
  refine (let H := preload_js_missing_executable (Examples.host_no_backend true)
                     constructor 7861
                     [(3, StdoutData "Running on http://localhost:7861")] _ _ in
          conj (proj1 H) (proj1 (proj2 H)));
    vm_compute; reflexivity.
Defined.

(** C8 at its failing input: [backend-manager.js] allocates a port and
    does not hand it to the backend.  With 7861 and 7862 taken it
    allocates 7863 and spawns the executable with the single argument
    [-u]: no [--port], no port number. *)
Lemma backend_manager_js_spawn_omits_port :
  fst (findAvailablePort Examples.host_two_taken DEFAULT_PORT MAX_PORT_ATTEMPTS)
    = Returns 7863 /\
  spawns (log (start backend_manager_js Examples.host_two_taken constructor []))
    = [Spawn "/work/electron-app/src/../../python-dist/backend.exe" ["-u"]
         ["pipe"; "pipe"; "pipe"] true] /\
  port (this (start backend_manager_js Examples.host_two_taken constructor [])) = 7863.
Proof. vm_compute. repeat split; reflexivity. Qed.

(** The later revision hands the allocated port to the backend: once a
    port [p] is allocated and the executable is in place, [start()] calls [spawn] exactly once,
    on the resolved path, with the arguments [-u], [--port] and the
    decimal text of [p], and with stdin, stdout and stderr piped. *)
Theorem preload_js_spawn_passes_port (h : host) (m : manager) (p : Z)
  (evs : list (Z * event)) :
  fst (findAvailablePort h DEFAULT_PORT MAX_PORT_ATTEMPTS) = Returns p ->
  fs_existsSync h (getBackendPath h) = true ->
  spawns (log (start preload_js h m evs))
    = [Spawn (getBackendPath h) ["-u"; "--port"; Number_toString p]
         ["pipe"; "pipe"; "pipe"] true].
Proof.
  intros Hp He.
  unfold start. rewrite spawns_quiesce, spawns_run, spawns_start_executor, Hp.
  cbn [passes_check]. rewrite He. reflexivity.
Qed.

Lemma preload_js_spawn_passes_port_witness :
  spawns (log (start preload_js Examples.host_two_taken constructor
                 [(100, StdoutData "Running on http://localhost:7863")]))
    = [Spawn "/work/electron-app/src/../../python-dist/backend.exe"
         ["-u"; "--port"; "7863"] ["pipe"; "pipe"; "pipe"] true].
Proof.
  refine (preload_js_spawn_passes_port Examples.host_two_taken constructor 7863
            [(100, StdoutData "Running on http://localhost:7863")] _ _);
    vm_compute; reflexivity.
Defined.

(** *** The ready flag *)

Lemma isReady_run_no_exit (rev : revision) (evs : list (Z * event)) :
  forall mc,
    listening mc = true ->
    forallb (fun tev => negb (is_exit tev)) evs = true ->
    isReady (this (run rev evs mc))
      = existsb (signals_ready rev) evs || isReady (this mc).
Proof.
  induction evs as [|tev evs IH]; intros mc Hl Hne; [reflexivity|].
  cbn [forallb] in Hne. apply andb_prop in Hne. destruct Hne as [Hne1 Hne2].
  change (run rev (tev :: evs) mc) with (run rev evs (step rev mc tev)).
  rewrite IH; [|rewrite listening_step; exact Hl|exact Hne2].
  rewrite (isReady_step rev mc tev Hl). cbn [existsb].
  unfold is_exit in Hne1. unfold signals_ready at 2.
  destruct (snd tev) as [data|data|msg|code]; cbn in *;
    try discriminate; rewrite ?orb_false_r, ?orb_assoc; try reflexivity.
  f_equal. apply orb_comm.
Qed.

Lemma ready_history_app (rev : revision) (evs1 evs2 : list (Z * event)) :
  forall mc,
    ready_history rev (evs1 ++ evs2) mc
    = (ready_history rev evs1 mc ++ ready_history rev evs2 (run rev evs1 mc))%list.
Proof.
  induction evs1 as [|tev evs1 IH]; intros mc; [reflexivity|].
  cbn [ready_history app]. rewrite IH. reflexivity.
Qed.

Lemma rises_app_false (l : list bool) :
  forall prev, rises prev (l ++ [false]) = rises prev l.
Proof.
  induction l as [|b l IH]; intros prev; cbn [rises app].
  - rewrite andb_false_r. reflexivity.
  - rewrite IH. reflexivity.
Qed.

(** Once raised, the flag stays up as long as the child has not exited. *)
Lemma rises_after_ready (rev : revision) (evs : list (Z * event)) :
  forall mc,
    listening mc = true ->
    isReady (this mc) = true ->
    forallb (fun tev => negb (is_exit tev)) evs = true ->
    rises true (ready_history rev evs mc) = O.
Proof.
  induction evs as [|tev evs IH]; intros mc Hl Hr Hne; [reflexivity|].
  cbn [forallb] in Hne. apply andb_prop in Hne. destruct Hne as [Hne1 Hne2].
  cbn [ready_history rises negb andb].
  assert (Hr' : isReady (this (step rev mc tev)) = true).
  { rewrite (isReady_step rev mc tev Hl). unfold is_exit in Hne1.
    destruct (snd tev); cbn in *; try discriminate; rewrite ?Hr, ?orb_true_r; reflexivity. }
  rewrite Hr'. apply IH; [rewrite listening_step; exact Hl|exact Hr'|exact Hne2].
Qed.

Lemma rises_until_exit (rev : revision) (evs : list (Z * event)) :
  forall mc,
    listening mc = true ->
    forallb (fun tev => negb (is_exit tev)) evs = true ->
    rises (isReady (this mc)) (ready_history rev evs mc)
      = if negb (isReady (this mc)) && existsb (signals_ready rev) evs
        then 1%nat else O.
Proof.
  induction evs as [|tev evs IH]; intros mc Hl Hne.
  - cbn. rewrite andb_false_r. reflexivity.
  - destruct (isReady (this mc)) eqn:Hr.
    + cbn [negb andb]. apply rises_after_ready; assumption.
    + cbn [forallb] in Hne. apply andb_prop in Hne. destruct Hne as [Hne1 Hne2].
      cbn [ready_history rises negb andb existsb].
      assert (Hl' : listening (step rev mc tev) = true)
        by (rewrite listening_step; exact Hl).
      assert (Hstep : isReady (this (step rev mc tev)) = signals_ready rev tev).
      { rewrite (isReady_step rev mc tev Hl). unfold signals_ready, is_exit in *.
        destruct (snd tev); cbn in *; try discriminate;
          rewrite ?Hr, ?orb_false_r; reflexivity. }
      specialize (IH (step rev mc tev) Hl' Hne2). rewrite Hstep in *.
      rewrite IH. destruct (signals_ready rev tev); reflexivity.
Qed.

Lemma listening_run (rev : revision) (evs : list (Z * event)) :
  forall mc, listening (run rev evs mc) = listening mc.
Proof.
  induction evs as [|tev evs IH]; intros mc; [reflexivity|].
  change (run rev (tev :: evs) mc) with (run rev evs (step rev mc tev)).
  rewrite IH. apply listening_step.
Qed.

(** C9, as stated, fails.  (1) Stdout delivered after the 'exit' event is
    still scanned: on readiness chunk, exit, readiness chunk the flag goes
    from false to true twice.  (2) In the later revision a chunk that
    contains the marker "Running on" and a [localhost:<digits>] match,
    but also "initializing", does not raise the flag. *)
Lemma ready_flag_rises_again_after_exit :
  rises false
    (ready_history backend_manager_js
       [(100, StdoutData "Running on http://localhost:7861");
        (200, ChildExit (Some 1));
        (201, StdoutData "Running on http://localhost:7861")]
       (start_executor backend_manager_js Examples.host_ok constructor))
    = 2%nat /\
  (includes "Backend initializing. Running on http://localhost:7861" "Running on" = true /\
   match_localhost_port "Backend initializing. Running on http://localhost:7861"
     = Some "7861" /\
   isReady (this (run preload_js
                    [(100, StdoutData "Backend initializing. Running on http://localhost:7861")]
                    (start_executor preload_js Examples.host_ok constructor)))
     = false).
Proof. vm_compute. repeat split; reflexivity. Qed.

(** C9, amended.  Take one child, from the attaching of the listeners up
    to its exit: events [evs] without an exit, then the exit.  A
    readiness signal is a chunk the stdout listener takes as one
    ([is_ready_chunk]: it contains a marker or matches
    [localhost:<digits>] and, in the later revision, does not contain
    "initializing").  In both revisions: after every prefix of [evs] the
    flag [this.isReady] is up exactly when it was up at the start or a
    readiness signal was among the events so far, so a flag that is down
    goes up at the first readiness signal and not before; up to and
    including the exit it goes from false to true once when it started
    down and there is a readiness signal, and never otherwise, hence at
    most once; after the exit it is false; and the exit listener lowers
    it in whatever state it runs.  Stdout delivered after the exit is
    still scanned: after further exit-free events [late] the flag is up
    exactly when a readiness signal is among them. *)
Theorem ready_flag_rises_once (rev : revision) (mc : machine)
  (evs : list (Z * event)) (t : Z) (code : option Z) :
  listening mc = true ->
  forallb (fun tev => negb (is_exit tev)) evs = true ->
  (forall pre post, evs = (pre ++ post)%list ->
     isReady (this (run rev pre mc))
       = existsb (signals_ready rev) pre || isReady (this mc)) /\
  rises (isReady (this mc)) (ready_history rev (evs ++ [(t, ChildExit code)]) mc)
    = (if negb (isReady (this mc)) && existsb (signals_ready rev) evs
       then 1%nat else O) /\
  (rises (isReady (this mc)) (ready_history rev (evs ++ [(t, ChildExit code)]) mc)
     <= 1)%nat /\
  isReady (this (run rev (evs ++ [(t, ChildExit code)]) mc)) = false /\
  (forall mc' t' code',
     listening mc' = true ->
     isReady (this (step rev mc' (t', ChildExit code'))) = false) /\
  (forall late,
     forallb (fun tev => negb (is_exit tev)) late = true ->
     isReady (this (run rev ((evs ++ [(t, ChildExit code)]) ++ late) mc))
       = existsb (signals_ready rev) late).
Proof.
  intros Hl Hne.
  assert (Hexit : forall mc' t' code',
             listening mc' = true ->
             isReady (this (step rev mc' (t', ChildExit code'))) = false).
  { intros mc' t' code' Hl'. rewrite (isReady_step rev mc' _ Hl'). reflexivity. }
  assert (Hrun : listening (run rev evs mc) = true)
    by (rewrite listening_run; exact Hl).
  assert (Hcount :
            rises (isReady (this mc)) (ready_history rev (evs ++ [(t, ChildExit code)]) mc)
            = if negb (isReady (this mc)) && existsb (signals_ready rev) evs
              then 1%nat else O).
  { rewrite ready_history_app. cbn [ready_history].
    rewrite (Hexit _ t code Hrun), rises_app_false.
    apply rises_until_exit; assumption. }
  assert (Hdown : isReady (this (run rev (evs ++ [(t, ChildExit code)]) mc)) = false).
  { rewrite run_app.
    change (run rev [(t, ChildExit code)] ?x) with (step rev x (t, ChildExit code)).
    apply Hexit. exact Hrun. }
  split; [|split; [exact Hcount|split; [|split; [exact Hdown|split; [exact Hexit|]]]]].
  - intros pre post Heq. subst evs.
    rewrite forallb_app in Hne. apply andb_prop in Hne. destruct Hne as [Hne _].
    apply (isReady_run_no_exit rev pre mc Hl Hne).
  - rewrite Hcount.
    destruct (negb (isReady (this mc)) && existsb (signals_ready rev) evs); lia.
  - intros late Hlate. rewrite run_app.
    rewrite (isReady_run_no_exit rev late _ (eq_trans (listening_run rev _ mc) Hl) Hlate).
    rewrite Hdown. apply orb_false_r.
Qed.

Lemma ready_flag_rises_once_witness :
  rises false
    (ready_history preload_js
       ([(10, StdoutData "Backend initializing");
         (900, StdoutData "Launching Gradio");
         (950, StdoutData "Running on http://localhost:7861")]
        ++ [(5000, ChildExit (Some 0))])
       (start_executor preload_js Examples.host_ok constructor))
    = 1%nat /\
  isReady (this (run preload_js
                   ([(10, StdoutData "Backend initializing");
                     (900, StdoutData "Launching Gradio");
                     (950, StdoutData "Running on http://localhost:7861")]
                    ++ [(5000, ChildExit (Some 0))])
                   (start_executor preload_js Examples.host_ok constructor)))
    = false.
Proof.
  refine (let H := ready_flag_rises_once preload_js
                     (start_executor preload_js Examples.host_ok constructor)
                     [(10, StdoutData "Backend initializing");
                      (900, StdoutData "Launching Gradio");
                      (950, StdoutData "Running on http://localhost:7861")]
                     5000 (Some 0) _ _ in
          conj (proj1 (proj2 H)) (proj1 (proj2 (proj2 (proj2 H)))));
    vm_compute; reflexivity.
Defined.

(** Outside that lifetime: Node may still deliver buffered stdout after
    the 'exit' event, and the stdout listener then raises the flag
    again. *)
Remark ready_flag_after_late_output :
  ready_history backend_manager_js
    [(100, StdoutData "Running on http://localhost:7861");
     (200, ChildExit (Some 1));
     (201, StdoutData "Running on http://localhost:7861")]
    (start_executor backend_manager_js Examples.host_ok constructor)
  = [true; false; true].
Proof. vm_compute. reflexivity. Qed.

(** [stop()] when tree-kill reports an error: the error is printed, the
    state is cleared all the same and the promise is fulfilled. *)
Example stop_when_kill_fails :
  stop Examples.host_kill_fails Examples.running
  = ({| process := None; port := 7861; isReady := false |},
     [TreeKill (Some 4242) "SIGTERM";
      ConsoleErrorWith "Error killing backend:" (Error "Command failed: taskkill")],
     StopFulfilled).
Proof. reflexivity. Qed.

(** ** The port allocator: what it leaves behind, and its edge cases *)

Lemma findAvailablePort_loop_closes (h : host) (startPort : Z) (remaining : nat) :
  forall offset,
    closes (snd (findAvailablePort_loop h startPort offset remaining))
      = match fst (findAvailablePort_loop h startPort offset remaining) with
        | Returns (Some p) => [p]
        | _ => []
        end /\
    Forall (eq "localhost")
      (probed_hosts (snd (findAvailablePort_loop h startPort offset remaining))) /\
    match fst (findAvailablePort_loop h startPort offset remaining) with
    | Returns (Some p) =>
        exists before,
          snd (findAvailablePort_loop h startPort offset remaining)
          = (before ++ [NetListen p "localhost"; ServerClose p])%list
    | _ => True
    end.
Proof.
  induction remaining as [|n IH]; intros offset.
  - cbn. repeat split. constructor.
  - cbn [findAvailablePort_loop]. unfold isPortAvailable, bind, emit, ret, throw.
    destruct (net_listen h (startPort + offset)) eqn:Hl; cbn.
    + repeat split; [repeat constructor|]. exists []. reflexivity.
    + destruct (IH (offset + 1)) as (Hc & Hh & Hs).
      destruct (findAvailablePort_loop h startPort (offset + 1) n) as [r tr].
      cbn [fst snd] in *. cbn.
      split; [exact Hc|]. split; [constructor; [reflexivity|exact Hh]|].
      destruct r as [[p|]|e]; try exact I.
      destruct Hs as [before Hs]. rewrite Hs.
      exists (NetListen (startPort + offset) "localhost"
              :: ConsoleLog ("Port " ++ Number_toString (startPort + offset)
                             ++ " is in use, trying next...")
              :: before)%list.
      reflexivity.
    + repeat split. repeat constructor.
Qed.

(** The allocator holds on to nothing.  Every probe is on [localhost];
    the only server closed is the one of the port returned, and closing
    it is the last thing the allocator does; a run that throws closed
    nothing, because none of its servers came to listen. *)
Theorem findAvailablePort_releases_its_socket (h : host) (P N : Z) :
  closes (snd (findAvailablePort h P N))
    = match fst (findAvailablePort h P N) with
      | Returns p => [p]
      | Throws _ => []
      end /\
  Forall (eq "localhost") (probed_hosts (snd (findAvailablePort h P N))) /\
  match fst (findAvailablePort h P N) with
  | Returns p =>
      exists before,
        snd (findAvailablePort h P N)
        = (before ++ [NetListen p "localhost"; ServerClose p])%list
  | Throws _ => True
  end.
Proof.
  rewrite findAvailablePort_unfold.
  destruct (findAvailablePort_loop_closes h P (Z.to_nat N) 0) as (Hc & Hh & Hs).
  destruct (findAvailablePort_loop h P 0 (Z.to_nat N)) as [[[p|]|e] tr];
    cbn [fst snd] in *; repeat split; assumption.
Qed.

(** With no attempt allowed ([maxAttempts] zero or negative) the loop body
    never runs: nothing is probed and the no-port error is thrown, its
    range ending below its start. *)
Theorem findAvailablePort_without_attempts (h : host) (P N : Z) :
  N <= 0 ->
  findAvailablePort h P N = (Throws (Error (no_port_message P N)), []).
Proof.
  intros HN. rewrite findAvailablePort_unfold.
  replace (Z.to_nat N) with O by lia. reflexivity.
Qed.

Lemma findAvailablePort_without_attempts_witness :
  findAvailablePort Examples.host_ok 7861 0
  = (Throws (Error "No available port found in range 7861-7860"), []).
Proof.
  refine (findAvailablePort_without_attempts Examples.host_ok 7861 0 _).
  vm_compute. discriminate.
Defined.

Lemma findAvailablePort_loop_more (h : host) (startPort : Z) (remaining : nat) :
  forall offset p tr extra,
    findAvailablePort_loop h startPort offset remaining = (Returns (Some p), tr) ->
    findAvailablePort_loop h startPort offset (remaining + extra) = (Returns (Some p), tr).
Proof.
  induction remaining as [|n IH]; intros offset p tr extra H.
  - cbn in H. discriminate.
  - cbn [Nat.add]. cbn [findAvailablePort_loop] in *.
    unfold isPortAvailable, bind, emit, ret, throw in *.
    destruct (net_listen h (startPort + offset)); cbn in *.
    + exact H.
    + destruct (findAvailablePort_loop h startPort (offset + 1) n) as [r tr'] eqn:Hn.
      injection H as Hr Htr. subst r.
      rewrite (IH (offset + 1) p tr' extra Hn). cbn. rewrite Htr. reflexivity.
    + discriminate.
Qed.

(** A successful allocation does not depend on how many further attempts
    were allowed: with a larger [maxAttempts] the same port is returned
    after the same probes. *)
Theorem findAvailablePort_more_attempts (h : host) (P N N' p : Z) :
  N <= N' ->
  fst (findAvailablePort h P N) = Returns p ->
  findAvailablePort h P N' = findAvailablePort h P N.
Proof.
  intros HN Hp. rewrite !findAvailablePort_unfold in *.
  destruct (findAvailablePort_loop h P 0 (Z.to_nat N)) as [[[q|]|e] tr] eqn:Hloop;
    cbn [fst] in Hp; try discriminate.
  replace (Z.to_nat N') with (Z.to_nat N + (Z.to_nat N' - Z.to_nat N))%nat by lia.
  rewrite (findAvailablePort_loop_more h P _ 0 q tr _ Hloop). reflexivity.
Qed.

Lemma findAvailablePort_more_attempts_witness :
  findAvailablePort Examples.host_two_taken 7861 50
  = findAvailablePort Examples.host_two_taken 7861 3.
Proof.
  refine (findAvailablePort_more_attempts Examples.host_two_taken 7861 3 50 7863 _ _).
  - vm_compute. discriminate.
  - vm_compute. reflexivity.
Defined.

(** ** [start()]: what holds of every run *)

Lemma log_dispatch (rev : revision) (ev : event) (mc : machine) :
  exists es,
    log (dispatch rev ev mc) = (log mc ++ es)%list /\
    forallb listener_effect es = true.
Proof.
  destruct ev as [data|data|msg|code]; cbn [dispatch].
  - destruct (is_ready_chunk rev data) eqn:Hr.
    + rewrite (onStdoutData_ready _ _ _ Hr), ready_branch_eq.
      cbn [log console_log do_effects]. rewrite <- app_assoc.
      eexists. split; [reflexivity|reflexivity].
    + unfold is_ready_chunk in Hr. unfold onStdoutData, console_log, do_effects.
      destruct rev.
      * rewrite Hr. cbn [log]. eexists. split; reflexivity.
      * destruct (includes data "initializing").
        -- cbn [log]. rewrite <- app_assoc. eexists. split; reflexivity.
        -- cbn [negb andb] in Hr. rewrite Hr. cbn [log]. eexists. split; reflexivity.
  - cbn. eexists. split; reflexivity.
  - rewrite onError_eq. cbn [log]. eexists. split; reflexivity.
  - cbn. eexists. split; reflexivity.
Qed.

Lemma log_step (rev : revision) (mc : machine) (tev : Z * event) :
  exists es,
    log (step rev mc tev) = (log mc ++ es)%list /\
    forallb listener_effect es = true.
Proof.
  destruct (listening mc) eqn:Hl.
  - destruct tev as [t ev]. rewrite (step_eq rev mc t ev Hl).
    destruct (log_dispatch rev ev (due rev t mc)) as (es & He & Hf).
    rewrite He, due_eq.
    destruct (timer mc) as [d|]; [destruct (d <=? t)|].
    + rewrite fire_timer_eq. cbn [at_time log]. rewrite <- app_assoc.
      eexists. split; [reflexivity|]. cbn. exact Hf.
    + exists es. split; [reflexivity|exact Hf].
    + exists es. split; [reflexivity|exact Hf].
  - unfold step. rewrite Hl. exists []. rewrite app_nil_r. split; reflexivity.
Qed.

Lemma log_run (rev : revision) (evs : list (Z * event)) :
  forall mc,
    exists es,
      log (run rev evs mc) = (log mc ++ es)%list /\
      forallb listener_effect es = true.
Proof.
  induction evs as [|tev evs IH]; intros mc.
  - exists []. rewrite app_nil_r. split; reflexivity.
  - change (run rev (tev :: evs) mc) with (run rev evs (step rev mc tev)).
    destruct (IH (step rev mc tev)) as (es2 & H2 & F2).
    destruct (log_step rev mc tev) as (es1 & H1 & F1).
    exists (es1 ++ es2)%list. rewrite H2, H1, <- app_assoc.
    split; [reflexivity|]. rewrite forallb_app, F1, F2. reflexivity.
Qed.

(** The log of a run is the log of its executor, then what the listeners
    and the timer callback did. *)
Lemma log_start (rev : revision) (h : host) (m : manager)
  (evs : list (Z * event)) :
  exists es,
    log (start rev h m evs) = (log (start_executor rev h m) ++ es)%list /\
    forallb listener_effect es = true.
Proof.
  unfold start.
  destruct (log_run rev evs (start_executor rev h m)) as (es & He & Hf).
  unfold quiesce. destruct (timer (run rev evs (start_executor rev h m))).
  - rewrite fire_timer_eq. cbn [log]. rewrite He, <- app_assoc.
    eexists. split; [reflexivity|]. rewrite forallb_app, Hf. reflexivity.
  - exists es. split; assumption.
Qed.

(** Once the executor is through, events reach the outside only as
    printing, [clearTimeout], [resolve] and [reject]: whatever the child
    delivers and whenever the timer fires, [start()] spawns nothing more,
    signals no process, probes no port, looks at no file and arms no
    timer. *)
Theorem start_events_only_report (rev : revision) (h : host) (m : manager)
  (evs : list (Z * event)) :
  exists es,
    log (start rev h m evs) = (log (start_executor rev h m) ++ es)%list /\
    forallb listener_effect es = true.
Proof.
  destruct (log_start rev h m evs) as (es & He & Hf).
  exists es. split; [exact He|exact Hf].
Qed.

(** An 'error' event that reaches a waiting [start()] rejects it. *)
Lemma waiting_step_error (rev : revision) (d : Z) (mc : machine) (t : Z) (msg : string) :
  waiting d mc ->
  t < d ->
  promise (step rev mc (t, ChildError msg))
    = Rejected (Error ("Failed to start backend: " ++ msg)) /\
  settled_at (step rev mc (t, ChildError msg)) = Some t /\
  timer (step rev mc (t, ChildError msg)) = None.
Proof.
  intros (Hl & Hp & Ht) Hlt.
  rewrite (step_eq rev mc t _ Hl), due_eq, Ht.
  replace (d <=? t) with false by (symmetry; apply Z.leb_gt; exact Hlt).
  cbn [dispatch]. rewrite onError_eq.
  cbn [promise settled_at timer clock at_time]. rewrite Hp. repeat split; reflexivity.
Qed.

(** The spawn error.  When [start()] has spawned the child and, before
    the timer's delay is over and before any readiness signal, the child
    emits 'error', the promise of [start()] is rejected at that moment
    with "Failed to start backend: " followed by the message of the
    event; the timer is cleared, and nothing delivered later changes the
    outcome. *)
Theorem start_rejects_on_child_error (rev : revision) (h : host) (m : manager)
  (p : Z) (before : list (Z * event)) (t : Z) (msg : string)
  (after : list (Z * event)) :
  fst (findAvailablePort h DEFAULT_PORT MAX_PORT_ATTEMPTS) = Returns p ->
  reaches_spawn rev h = true ->
  forallb (calm_before rev (STARTUP_TIMEOUT_MS rev)) before = true ->
  t < STARTUP_TIMEOUT_MS rev ->
  promise (start rev h m (before ++ (t, ChildError msg) :: after))
    = Rejected (Error ("Failed to start backend: " ++ msg)) /\
  settled_at (start rev h m (before ++ (t, ChildError msg) :: after)) = Some t /\
  timer (run rev (before ++ [(t, ChildError msg)]) (start_executor rev h m)) = None.
Proof.
  intros Hp Hs Hcalm Hlt.
  destruct (start_executor_spawned rev h m p Hp Hs) as (Hw & _).
  destruct (waiting_run_calm rev _ before _ Hw Hcalm) as (Hw' & _).
  destruct (waiting_step_error rev _ _ t msg Hw' Hlt) as (H1 & H2 & H3).
  split; [|split].
  - unfold start. rewrite run_app.
    change (run rev ((t, ChildError msg) :: after) ?x)
      with (run rev after (step rev x (t, ChildError msg))).
    set (mc1 := step rev (run rev before (start_executor rev h m)) (t, ChildError msg)) in *.
    assert (Hne : promise mc1 <> Pending) by (rewrite H1; discriminate).
    destruct (settled_run rev after mc1 Hne) as [H4 _].
    assert (Hne' : promise (run rev after mc1) <> Pending) by (rewrite H4; exact Hne).
    destruct (settled_quiesce rev _ Hne') as [H5 _].
    rewrite H5, H4. exact H1.
  - unfold start. rewrite run_app.
    change (run rev ((t, ChildError msg) :: after) ?x)
      with (run rev after (step rev x (t, ChildError msg))).
    set (mc1 := step rev (run rev before (start_executor rev h m)) (t, ChildError msg)) in *.
    assert (Hne : promise mc1 <> Pending) by (rewrite H1; discriminate).
    destruct (settled_run rev after mc1 Hne) as [H4 H4'].
    assert (Hne' : promise (run rev after mc1) <> Pending) by (rewrite H4; exact Hne).
    destruct (settled_quiesce rev _ Hne') as [_ H6].
    rewrite H6, H4'. exact H2.
  - rewrite run_app. exact H3.
Qed.

Lemma start_rejects_on_child_error_witness :
  promise (start backend_manager_js (Examples.host_no_backend false) constructor
             ([(1, StderrData "")] ++ (3, ChildError "spawn backend.exe ENOENT")
              :: [(9, ChildExit None)]))
    = Rejected (Error "Failed to start backend: spawn backend.exe ENOENT").
Proof.
  refine (proj1 (start_rejects_on_child_error backend_manager_js
                   (Examples.host_no_backend false) constructor 7861
                   [(1, StderrData "")] 3 "spawn backend.exe ENOENT"
                   [(9, ChildExit None)] _ _ _ _));
    vm_compute; reflexivity.
Defined.

Lemma start_executor_not_found_settled (h : host) (m : manager) (p : Z) :
  fst (findAvailablePort h DEFAULT_PORT MAX_PORT_ATTEMPTS) = Returns p ->
  fs_existsSync h (getBackendPath h) = false ->
  settled_at (start_executor preload_js h m) = Some 0 /\
  timer (start_executor preload_js h m) = None.
Proof.
  intros Hp Hs. unfold start_executor.
  destruct (findAvailablePort h DEFAULT_PORT MAX_PORT_ATTEMPTS) as [[p'|e] tr];
    cbn [fst snd] in *; [|discriminate].
  rewrite Hs. cbn. split; reflexivity.
Qed.

Lemma on_schedule_step (rev : revision) (d : Z) (mc : machine) (tev : Z * event) :
  listening mc = true ->
  on_schedule d mc ->
  on_schedule d (step rev mc tev).
Proof.
  intros Hl [[Hp Ht] | [Hp (s & Hs & Hle)]].
  - assert (Hw : waiting d mc) by (repeat split; assumption).
    destruct (Z_lt_ge_dec (fst tev) d) as [Hlt|Hge].
    + destruct tev as [t ev]. cbn [fst] in Hlt.
      destruct (calm rev ev) eqn:Hc.
      * left.
        assert (Hcb : calm_before rev d (t, ev) = true).
        { unfold calm_before. cbn [fst snd]. rewrite Hc.
          replace (t <? d) with true by (symmetry; apply Z.ltb_lt; exact Hlt).
          reflexivity. }
        destruct (waiting_step_calm rev d mc (t, ev) Hw Hcb) as ((_ & H1 & H2) & _).
        split; assumption.
      * right. destruct ev as [data|data|msg|code]; cbn [calm] in Hc; try discriminate.
        -- apply negb_false_iff in Hc.
           destruct (waiting_step_ready rev d mc t data Hw Hlt Hc) as (H1 & H2 & _).
           split; [rewrite H1; discriminate|]. exists t. split; [exact H2|lia].
        -- destruct (waiting_step_error rev d mc t msg Hw Hlt) as (H1 & H2 & _).
           split; [rewrite H1; discriminate|]. exists t. split; [exact H2|lia].
    + right. destruct (waiting_step_late rev d mc tev Hw) as [H1 H2]; [lia|].
      split; [rewrite H1; discriminate|]. exists d. split; [exact H2|lia].
  - right. destruct (settled_step rev mc tev Hp) as [H1 H2].
    split; [rewrite H1; exact Hp|]. exists s. rewrite H2. split; assumption.
Qed.

Lemma on_schedule_run (rev : revision) (d : Z) (evs : list (Z * event)) :
  forall mc,
    listening mc = true ->
    on_schedule d mc ->
    on_schedule d (run rev evs mc).
Proof.
  induction evs as [|tev evs IH]; intros mc Hl Hs; [exact Hs|].
  change (run rev (tev :: evs) mc) with (run rev evs (step rev mc tev)).
  apply IH; [rewrite listening_step; exact Hl|].
  apply on_schedule_step; assumption.
Qed.

Lemma start_without_listeners (rev : revision) (h : host) (m : manager)
  (evs : list (Z * event)) :
  listening (start_executor rev h m) = false ->
  timer (start_executor rev h m) = None ->
  start rev h m evs = start_executor rev h m.
Proof.
  intros Hl Ht. unfold start. rewrite (run_not_listening _ _ _ Hl).
  unfold quiesce. rewrite Ht. reflexivity.
Qed.

(** Every run whose [spawn] does not throw ends settled, no later than
    the delay of the timer; a run whose [spawn] throws never settles. *)
Lemma start_settles_or_waits (rev : revision) (h : host) (m : manager)
  (evs : list (Z * event)) :
  (spawn_call_throws rev h = false ->
   promise (start rev h m evs) <> Pending /\
   exists s,
     settled_at (start rev h m evs) = Some s /\ s <= STARTUP_TIMEOUT_MS rev) /\
  (spawn_call_throws rev h = true ->
   promise (start rev h m evs) = Pending /\
   settled_at (start rev h m evs) = None /\
   timer (start rev h m evs) = None /\
   process (this (start rev h m evs)) = process m).
Proof.
  assert (Hpos : 0 <= STARTUP_TIMEOUT_MS rev) by (destruct rev; cbn; lia).
  unfold spawn_call_throws.
  destruct (fst (findAvailablePort h DEFAULT_PORT MAX_PORT_ATTEMPTS)) as [p|e] eqn:Hfind.
  - destruct (passes_check rev h) eqn:Hcheck; [destruct (spawn_returns h) eqn:Hret|].
    + split; [intros _|discriminate].
      assert (Hreach : reaches_spawn rev h = true)
        by (unfold reaches_spawn; rewrite Hcheck, Hret; reflexivity).
      destruct (start_executor_spawned rev h m p Hfind Hreach) as ((Hl & Hp & Ht) & _).
      assert (Hs : on_schedule (STARTUP_TIMEOUT_MS rev) (start_executor rev h m))
        by (left; split; assumption).
      pose proof (on_schedule_run rev _ evs _ Hl Hs) as Hrun.
      unfold start.
      destruct Hrun as [[Hp' Ht'] | [Hp' (s & Hs' & Hle)]].
      * unfold quiesce. rewrite Ht', fire_timer_eq. cbn [promise settled_at].
        rewrite Hp'. split; [discriminate|].
        exists (STARTUP_TIMEOUT_MS rev). split; [reflexivity|lia].
      * destruct (settled_quiesce rev _ Hp') as [H1 H2].
        rewrite H1, H2. split; [exact Hp'|]. exists s. split; assumption.
    + split; [discriminate|intros _].
      destruct (start_executor_spawn_throws rev h m p Hfind Hcheck Hret)
        as (Hl & Hp & Hs & Ht & Hthis).
      rewrite (start_without_listeners rev h m evs Hl Ht), Hp, Hs, Ht, Hthis.
      repeat split; reflexivity.
    + split; [intros _|discriminate].
      destruct rev; cbn [passes_check] in Hcheck; [discriminate|].
      destruct (start_executor_not_found h m p Hfind Hcheck) as (Hl & Hpr & _ & _).
      destruct (start_executor_not_found_settled h m p Hfind Hcheck) as (Hsa & Ht).
      rewrite (start_without_listeners preload_js h m evs Hl Ht), Hpr, Hsa.
      split; [discriminate|]. exists 0. split; [reflexivity|exact Hpos].
  - split; [intros _|discriminate].
    unfold start. rewrite (start_executor_no_port rev h m e Hfind).
    rewrite run_not_listening by reflexivity. cbn.
    split; [discriminate|]. exists 0. split; [reflexivity|exact Hpos].
Qed.

(** When [start()] settles.  In every run in which the call of [spawn]
    does not throw, the promise of [start()] ends fulfilled or rejected,
    never pending, and it settles no later than the delay of the startup
    timer: before any wait when no port or no executable is found, else
    at the first readiness signal or 'error' event, and at the latest
    when the timer fires.  In a run in which [spawn] throws, the
    exception is lost in the [async] executor: the promise of [start()]
    stays pending whatever is delivered, with no timer armed, and
    [this.process] is what it was. *)
Theorem start_settles_in_time_unless_spawn_throws (rev : revision) (h : host)
  (m : manager) (evs : list (Z * event)) :
  (spawn_call_throws rev h = false ->
   promise (start rev h m evs) <> Pending /\
   exists s,
     settled_at (start rev h m evs) = Some s /\ s <= STARTUP_TIMEOUT_MS rev) /\
  (spawn_call_throws rev h = true ->
   promise (start rev h m evs) = Pending /\
   settled_at (start rev h m evs) = None /\
   timer (start rev h m evs) = None /\
   process (this (start rev h m evs)) = process m).
Proof.
  destruct (start_settles_or_waits rev h m evs) as [Hok Hthrow].
  split.
  - intros Hc. destruct (Hok Hc) as (Hne & s & Hs & Hle).
    split; [exact Hne|]. exists s. split; [exact Hs|exact Hle].
  - intros Hc. destruct (Hthrow Hc) as (Hp & Hs & Ht & Hproc).
    split; [exact Hp|]. split; [exact Hs|]. split; [exact Ht|exact Hproc].
Qed.

(** A run in which [spawn] throws: the call is made, the promise stays
    pending, no handle is stored; the chunk delivered is not listened
    to. *)
Example start_pending_when_spawn_throws :
  promise (start backend_manager_js Examples.host_spawn_throws constructor
             [(100, StdoutData "Running on http://localhost:7861")])
    = Pending /\
  process (this (start backend_manager_js Examples.host_spawn_throws constructor
                   [(100, StdoutData "Running on http://localhost:7861")]))
    = None /\
  spawns (log (start backend_manager_js Examples.host_spawn_throws constructor
                 [(100, StdoutData "Running on http://localhost:7861")]))
    = [Spawn "/work/electron-app/src/../../python-dist/backend.exe" ["-u"]
         ["pipe"; "pipe"; "pipe"] true].
Proof. vm_compute. repeat split; reflexivity. Qed.

(** The [spawn] calls of a run are those of its executor. *)
Lemma spawns_start (rev : revision) (h : host) (m : manager)
  (evs : list (Z * event)) :
  spawns (log (start rev h m evs))
  = match fst (findAvailablePort h DEFAULT_PORT MAX_PORT_ATTEMPTS) with
    | Returns p =>
        if passes_check rev h
        then [Spawn (getBackendPath h) (spawn_args rev p) stdio_pipes true]
        else []
    | Throws _ => []
    end.
Proof.
  unfold start. rewrite spawns_quiesce, spawns_run. apply spawns_start_executor.
Qed.

(** When [start()] calls [spawn].  In every run [spawn] is called at most
    once: exactly when a port was allocated and, in the later revision,
    [existsSync] answered true for the resolved path; the call is then on
    that path, with the argument list of the revision for the allocated
    port, piped stdio and a hidden window, whether [spawn] then returns a
    child or throws.  No event and no timer adds a second call. *)
Theorem start_spawns_exactly_when (rev : revision) (h : host) (m : manager)
  (evs : list (Z * event)) :
  spawns (log (start rev h m evs))
  = match fst (findAvailablePort h DEFAULT_PORT MAX_PORT_ATTEMPTS) with
    | Returns p =>
        if passes_check rev h
        then [Spawn (getBackendPath h) (spawn_args rev p) stdio_pipes true]
        else []
    | Throws _ => []
    end.
Proof.
  pose proof (spawns_start rev h m evs) as H.
  destruct (fst (findAvailablePort h DEFAULT_PORT MAX_PORT_ATTEMPTS)) as [p|e];
    [destruct (passes_check rev h)|]; exact H.
Qed.

Lemma kills_of_listener_effects (es : list effect) :
  forallb listener_effect es = true -> filter is_tree_kill es = [].
Proof.
  induction es as [|e es IH]; [reflexivity|].
  cbn [forallb filter]. intros H. apply andb_prop in H. destruct H as [He Hes].
  destruct e; cbn in He; try discriminate; cbn; exact (IH Hes).
Qed.

Lemma kills_findAvailablePort_loop (h : host) (P : Z) (remaining : nat) :
  forall offset,
    filter is_tree_kill (snd (findAvailablePort_loop h P offset remaining)) = [].
Proof.
  induction remaining as [|n IH]; intros offset; [reflexivity|].
  cbn [findAvailablePort_loop]. unfold isPortAvailable, bind, emit, ret, throw.
  destruct (net_listen h (P + offset)); cbn; try reflexivity.
  specialize (IH (offset + 1)).
  destruct (findAvailablePort_loop h P (offset + 1) n) as [r tr]; cbn in *.
  exact IH.
Qed.

Lemma kills_start_executor (rev : revision) (h : host) (m : manager) :
  filter is_tree_kill (log (start_executor rev h m)) = [].
Proof.
  unfold start_executor.
  pose proof (kills_findAvailablePort_loop h DEFAULT_PORT
                (Z.to_nat MAX_PORT_ATTEMPTS) 0) as Hk.
  rewrite findAvailablePort_unfold.
  destruct (findAvailablePort_loop h DEFAULT_PORT 0 (Z.to_nat MAX_PORT_ATTEMPTS))
    as [[[p|]|e] tr]; cbn [snd] in Hk.
  - unfold spawn_and_listen.
    destruct rev; [|destruct (fs_existsSync h (getBackendPath h))];
      destruct (spawn_throws h); cbn;
      rewrite ?app_nil_r, !filter_app, Hk; reflexivity.
  - cbn. rewrite ?app_nil_r, !filter_app, Hk. reflexivity.
  - cbn. rewrite ?app_nil_r, !filter_app, Hk. reflexivity.
Qed.

(** The handle outlives the child.  [start()] never sends a signal, and
    once it has spawned the child [this.process] holds that child's
    handle at the end of every run: a readiness signal, an 'error'
    event, the timeout and also the child's exit leave it in place.  A
    [stop()] after the child has exited therefore still sends SIGTERM
    to the tree of its pid, and only then is the handle cleared. *)
Theorem start_keeps_handle_through_exit (rev : revision) (h : host) (m : manager)
  (p : Z) (evs : list (Z * event)) :
  fst (findAvailablePort h DEFAULT_PORT MAX_PORT_ATTEMPTS) = Returns p ->
  reaches_spawn rev h = true ->
  filter is_tree_kill (log (start rev h m evs)) = [] /\
  process (this (start rev h m evs)) = Some {| pid := spawn_pid h |} /\
  filter is_tree_kill (snd (fst (stop h (this (start rev h m evs)))))
    = [TreeKill (spawn_pid h) "SIGTERM"] /\
  process (fst (fst (stop h (this (start rev h m evs))))) = None.
Proof.
  intros Hp Hs.
  destruct (start_executor_spawned rev h m p Hp Hs) as (_ & Hthis & _ & _).
  assert (Hproc : process (this (start rev h m evs)) = Some {| pid := spawn_pid h |}).
  { unfold start. rewrite process_quiesce, process_run, Hthis. reflexivity. }
  split; [|split; [exact Hproc|]].
  - destruct (log_start rev h m evs) as (es & He & Hf).
    rewrite He, filter_app, kills_start_executor, (kills_of_listener_effects es Hf).
    reflexivity.
  - unfold stop, kill_callback. rewrite Hproc. cbn.
    destruct (tree_kill h (spawn_pid h) "SIGTERM"); cbn; split; reflexivity.
Qed.

Lemma start_keeps_handle_through_exit_witness :
  process (this (start preload_js Examples.host_ok constructor
                   [(100, StdoutData "Running on http://localhost:7861");
                    (5000, ChildExit (Some 1))]))
    = Some {| pid := Some 4242 |} /\
  filter is_tree_kill
    (snd (fst (stop Examples.host_ok
                 (this (start preload_js Examples.host_ok constructor
                          [(100, StdoutData "Running on http://localhost:7861");
                           (5000, ChildExit (Some 1))])))))
    = [TreeKill (Some 4242) "SIGTERM"].
Proof.
  refine (let H := start_keeps_handle_through_exit preload_js Examples.host_ok
                     constructor 7861
                     [(100, StdoutData "Running on http://localhost:7861");
                      (5000, ChildExit (Some 1))] _ _ in
          conj (proj1 (proj2 H)) (proj1 (proj2 (proj2 H))));
    vm_compute; reflexivity.
Defined.

Lemma port_step (rev : revision) (mc : machine) (tev : Z * event) :
  listening mc = true ->
  port (this (step rev mc tev)) = port_after rev (port (this mc)) tev.
Proof.
  intros Hl. destruct tev as [t ev].
  rewrite (step_eq rev mc t ev Hl), this_dispatch, this_due.
  unfold port_after. cbn [snd].
  destruct ev as [data|data|msg|code]; try reflexivity.
  destruct (is_ready_chunk rev data); reflexivity.
Qed.

Lemma port_run (rev : revision) (evs : list (Z * event)) :
  forall mc,
    listening mc = true ->
    port (this (run rev evs mc)) = port_trail rev evs (port (this mc)).
Proof.
  induction evs as [|tev evs IH]; intros mc Hl; [reflexivity|].
  change (run rev (tev :: evs) mc) with (run rev evs (step rev mc tev)).
  rewrite IH by (rewrite listening_step; exact Hl).
  rewrite (port_step rev mc tev Hl). reflexivity.
Qed.

Lemma this_quiesce (rev : revision) (mc : machine) :
  this (quiesce rev mc) = this mc.
Proof.
  unfold quiesce. destruct (timer mc); [rewrite fire_timer_eq|]; reflexivity.
Qed.

(** *** Numbers within the range the model follows *)

Lemma findAvailablePort_in_range (h : host) (P N p : Z) :
  fst (findAvailablePort h P N) = Returns p -> P <= p < P + N.
Proof.
  intros Hp.
  destruct (findAvailablePort_loop_spec h P (Z.to_nat N) 0) as (k & Hk & _ & Hpost).
  rewrite findAvailablePort_unfold in Hp.
  destruct (findAvailablePort_loop h P 0 (Z.to_nat N)) as [[[q|]|e] tr];
    cbn [fst snd] in *; try discriminate.
  injection Hp as ->. destruct Hpost as (Hk0 & Hpeq & _). lia.
Qed.

Lemma allocated_port_plain (h : host) (p : Z) :
  fst (findAvailablePort h DEFAULT_PORT MAX_PORT_ATTEMPTS) = Returns p ->
  plain_port p.
Proof.
  intros Hp. apply findAvailablePort_in_range in Hp.
  unfold plain_port, DEFAULT_PORT, MAX_PORT_ATTEMPTS in *. lia.
Qed.

Lemma digits_only_take_digits (s : string) : digits_only (take_digits s) = true.
Proof.
  induction s as [|c s IH]; [reflexivity|].
  cbn [take_digits]. destruct (is_digit c) eqn:Hc; [|reflexivity].
  cbn [digits_only]. rewrite Hc, IH. reflexivity.
Qed.

Lemma match_localhost_port_eq (s : string) :
  match_localhost_port s =
  match localhost_port_here s with
  | Some ds => Some ds
  | None =>
      match s with
      | EmptyString => None
      | String _ rest => match_localhost_port rest
      end
  end.
Proof. destruct s; reflexivity. Qed.

(** What the pattern captures is a run of digits. *)
Lemma match_localhost_port_digits (s ds : string) :
  match_localhost_port s = Some ds -> digits_only ds = true.
Proof.
  induction s as [|c s IH]; rewrite match_localhost_port_eq; unfold localhost_port_here.
  - destruct (strip_prefix "localhost:" EmptyString) as [rest|]; [|discriminate].
    pose proof (digits_only_take_digits rest) as Hd.
    destruct (take_digits rest); [discriminate|].
    intros H. injection H as <-. exact Hd.
  - destruct (strip_prefix "localhost:" (String c s)) as [rest|]; [|exact IH].
    pose proof (digits_only_take_digits rest) as Hd.
    destruct (take_digits rest); [exact IH|].
    intros H. injection H as <-. exact Hd.
Qed.

Lemma digit_value_bound (c : ascii) :
  is_digit c = true -> 0 <= digit_value c <= 9.
Proof.
  unfold is_digit, digit_value. intros H. apply andb_prop in H. destruct H as [H1 H2].
  apply Nat.leb_le in H1, H2. lia.
Qed.

Lemma parse_digits_bound (s : string) :
  forall acc,
    digits_only s = true ->
    0 <= acc ->
    0 <= parse_digits acc s < (acc + 1) * 10 ^ Z.of_nat (String.length s).
Proof.
  induction s as [|c s IH]; intros acc Hd Hacc.
  - cbn. lia.
  - cbn [digits_only] in Hd. apply andb_prop in Hd. destruct Hd as [Hc Hs].
    pose proof (digit_value_bound c Hc) as Hv.
    cbn [parse_digits String.length].
    specialize (IH (10 * acc + digit_value c) Hs ltac:(lia)).
    rewrite Nat2Z.inj_succ, Z.pow_succ_r by lia.
    assert (Hpow : 0 < 10 ^ Z.of_nat (String.length s)) by (apply Z.pow_pos_nonneg; lia).
    nia.
Qed.

(** A captured group of at most 15 digits gives a number below 10^15. *)
Lemma parseInt_plain (ds : string) :
  digits_only ds = true ->
  (String.length ds <= 15)%nat ->
  plain_port (parseInt ds).
Proof.
  intros Hd Hlen. unfold plain_port, parseInt.
  pose proof (parse_digits_bound ds 0 Hd ltac:(lia)) as H.
  assert (Hmono : 10 ^ Z.of_nat (String.length ds) <= 10 ^ 15)
    by (apply Z.pow_le_mono_r; lia).
  lia.
Qed.

Lemma plain_port_after (rev : revision) (current : Z) (tev : Z * event) :
  plain_port current ->
  short_match tev = true ->
  plain_port (port_after rev current tev).
Proof.
  intros Hc Hs. unfold port_after, short_match in *.
  destruct (snd tev) as [data|data|msg|code]; try exact Hc.
  destruct (is_ready_chunk rev data); [|exact Hc].
  destruct (match_localhost_port data) as [ds|] eqn:Hm; cbn [effective_port]; [|exact Hc].
  apply parseInt_plain; [exact (match_localhost_port_digits _ _ Hm)|].
  apply Nat.leb_le. exact Hs.
Qed.

Lemma plain_port_trail (rev : revision) (evs : list (Z * event)) :
  forall current,
    plain_port current ->
    forallb short_match evs = true ->
    plain_port (port_trail rev evs current).
Proof.
  induction evs as [|tev evs IH]; intros current Hc Hs; [exact Hc|].
  cbn [forallb] in Hs. apply andb_prop in Hs. destruct Hs as [Hs1 Hs2].
  unfold port_trail. cbn [fold_left]. apply IH; [|exact Hs2].
  apply plain_port_after; assumption.
Qed.

(** [this.port] at the end of a run, the chunks carrying at most 15
    digits after [localhost:].  When no port is found it is what it was;
    when the executable is missing (later revision) or [spawn] throws it
    is the allocated port; otherwise it is the allocated port
    overwritten, in order of arrival, by the number of every readiness
    chunk that matches [localhost:<digits>].  The stdout listener does
    this whether or not the promise has settled, so after a further
    matching chunk [this.port] is no longer the port [start()] resolved
    with.  Once a port was allocated the value stays below 10^15, where
    [parseInt] and the printing of the number are exact. *)
Theorem start_port_follows_output (rev : revision) (h : host) (m : manager)
  (evs : list (Z * event)) :
  forallb short_match evs = true ->
  port (this (start rev h m evs))
  = match fst (findAvailablePort h DEFAULT_PORT MAX_PORT_ATTEMPTS) with
    | Returns p => if reaches_spawn rev h then port_trail rev evs p else p
    | Throws _ => port m
    end /\
  (forall p,
     fst (findAvailablePort h DEFAULT_PORT MAX_PORT_ATTEMPTS) = Returns p ->
     plain_port (port (this (start rev h m evs)))).
Proof.
  intros Hshort.
  assert (Heq : port (this (start rev h m evs))
                = match fst (findAvailablePort h DEFAULT_PORT MAX_PORT_ATTEMPTS) with
                  | Returns p => if reaches_spawn rev h then port_trail rev evs p else p
                  | Throws _ => port m
                  end).
  { unfold start. rewrite this_quiesce.
    destruct (fst (findAvailablePort h DEFAULT_PORT MAX_PORT_ATTEMPTS)) as [p|e] eqn:Hfind.
    - destruct (reaches_spawn rev h) eqn:Hreach.
      + destruct (start_executor_spawned rev h m p Hfind Hreach) as ((Hl & _) & Hthis & _).
        rewrite (port_run rev evs _ Hl), Hthis. reflexivity.
      + unfold reaches_spawn in Hreach.
        destruct (passes_check rev h) eqn:Hcheck.
        * cbn [andb] in Hreach.
          destruct (start_executor_spawn_throws rev h m p Hfind Hcheck Hreach)
            as (Hl & _ & _ & _ & Hthis).
          rewrite (run_not_listening _ _ _ Hl), Hthis. reflexivity.
        * destruct rev; cbn [passes_check] in Hcheck; [discriminate|].
          destruct (start_executor_not_found h m p Hfind Hcheck) as (Hl & _).
          rewrite (run_not_listening _ _ _ Hl).
          unfold start_executor.
          destruct (findAvailablePort h DEFAULT_PORT MAX_PORT_ATTEMPTS) as [[p'|e] tr];
            cbn [fst] in Hfind; [|discriminate].
          injection Hfind as ->. rewrite Hcheck. reflexivity.
    - rewrite (start_executor_no_port rev h m e Hfind).
      rewrite run_not_listening by reflexivity. reflexivity. }
  split; [exact Heq|].
  intros p Hp. rewrite Heq, Hp.
  pose proof (allocated_port_plain h p Hp) as Hplain.
  destruct (reaches_spawn rev h); [|exact Hplain].
  apply plain_port_trail; assumption.
Qed.

Lemma start_port_follows_output_witness :
  forallb short_match
    [(100, StdoutData "Launching Gradio");
     (200, StdoutData "Running on http://localhost:7899")] = true /\
  port (this (start preload_js Examples.host_ok constructor
                [(100, StdoutData "Launching Gradio");
                 (200, StdoutData "Running on http://localhost:7899")]))
    = 7899.
Proof.
  split; [reflexivity|].
  refine (proj1 (start_port_follows_output preload_js Examples.host_ok constructor
                   [(100, StdoutData "Launching Gradio");
                    (200, StdoutData "Running on http://localhost:7899")] _)).
  vm_compute. reflexivity.
Defined.

(** The resolved port and [this.port] apart: one run of the later
    revision, in which "Launching Gradio" resolves [start()] with the
    allocated 7861 and the backend then announces 7899. *)
Example start_port_leaves_resolved_value :
  promise (start preload_js Examples.host_ok constructor
             [(100, StdoutData "Launching Gradio");
              (200, StdoutData "Running on http://localhost:7899")])
    = Fulfilled 7861 /\
  port (this (start preload_js Examples.host_ok constructor
                [(100, StdoutData "Launching Gradio");
                 (200, StdoutData "Running on http://localhost:7899")]))
    = 7899.
Proof. vm_compute. split; reflexivity. Qed.

(** ** [stop()] after [stop()] *)

(** Once [stop()] has resolved, another [stop()] does nothing: it sends
    no signal, prints nothing, resolves, and leaves the instance as the
    first call left it.  Neither call changes [this.port]. *)
Theorem stop_again_is_noop (h : host) (m : manager) :
  stop h (fst (fst (stop h m))) = (fst (fst (stop h m)), [], StopFulfilled) /\
  port (fst (fst (stop h m))) = port m.
Proof.
  unfold stop, kill_callback.
  destruct (process m) as [c|] eqn:Hp; cbn; [|rewrite Hp]; split; reflexivity.
Qed.

(** ** [startApp()] *)

Lemma fulfilled_dispatch (rev : revision) (ev : event) (mc : machine) (v : Z) :
  promise (dispatch rev ev mc) = Fulfilled v ->
  promise mc = Fulfilled v \/ v = port (this (dispatch rev ev mc)).
Proof.
  destruct ev as [data|data|msg|code]; cbn [dispatch].
  - destruct (is_ready_chunk rev data) eqn:Hr.
    + rewrite (onStdoutData_ready _ _ _ Hr), ready_branch_eq.
      cbn [promise this port console_log do_effects].
      destruct (promise mc); intros H; [right|left; exact H|discriminate].
      injection H as <-. reflexivity.
    + pose proof (f_equal promise (onStdoutData_calm rev data mc Hr)) as Hs.
      cbn [state_of promise] in Hs. rewrite Hs. intros H. left. exact H.
  - intros H. left. exact H.
  - rewrite onError_eq. cbn [promise].
    destruct (promise mc); intros H; [discriminate|left; exact H|discriminate].
  - intros H. left. exact H.
Qed.

Lemma fulfilled_due (rev : revision) (t : Z) (mc : machine) (v : Z) :
  promise (due rev t mc) = Fulfilled v -> promise mc = Fulfilled v.
Proof.
  rewrite due_eq. destruct (timer mc) as [d|]; [destruct (d <=? t)|];
    [rewrite fire_timer_eq|..]; cbn [at_time promise]; [|intros H; exact H..].
  destruct (promise mc); intros H; [discriminate|exact H|discriminate].
Qed.

(** A promise that becomes fulfilled is fulfilled with [this.port] as it
    is at that moment. *)
Lemma fulfilled_step (rev : revision) (mc : machine) (tev : Z * event) (v : Z) :
  promise (step rev mc tev) = Fulfilled v ->
  promise mc = Fulfilled v \/ v = port (this (step rev mc tev)).
Proof.
  destruct (listening mc) eqn:Hl.
  - destruct tev as [t ev]. rewrite (step_eq rev mc t ev Hl). intros H.
    destruct (fulfilled_dispatch rev ev _ v H) as [H1|H1]; [left|right; exact H1].
    exact (fulfilled_due rev t mc v H1).
  - unfold step. rewrite Hl. intros H. left. exact H.
Qed.

Lemma plain_run (rev : revision) (evs : list (Z * event)) :
  forall mc,
    listening mc = true ->
    forallb short_match evs = true ->
    plain_port (port (this mc)) ->
    (forall v, promise mc = Fulfilled v -> plain_port v) ->
    plain_port (port (this (run rev evs mc))) /\
    (forall v, promise (run rev evs mc) = Fulfilled v -> plain_port v).
Proof.
  induction evs as [|tev evs IH]; intros mc Hl Hs Hport Hprom; [split; assumption|].
  cbn [forallb] in Hs. apply andb_prop in Hs. destruct Hs as [Hs1 Hs2].
  change (run rev (tev :: evs) mc) with (run rev evs (step rev mc tev)).
  assert (Hport' : plain_port (port (this (step rev mc tev)))).
  { rewrite (port_step rev mc tev Hl). apply plain_port_after; assumption. }
  apply IH; [rewrite listening_step; exact Hl|exact Hs2|exact Hport'|].
  intros v Hv. destruct (fulfilled_step rev mc tev v Hv) as [H|H].
  - exact (Hprom v H).
  - rewrite H. exact Hport'.
Qed.

(** The port [start()] resolves with is below 10^15 when the chunks carry
    at most 15 digits after [localhost:]. *)
Lemma start_fulfilled_plain (rev : revision) (h : host) (m : manager)
  (evs : list (Z * event)) (v : Z) :
  forallb short_match evs = true ->
  promise (start rev h m evs) = Fulfilled v ->
  plain_port v.
Proof.
  intros Hshort Hv.
  destruct (spawn_call_throws rev h) eqn:Hthrow.
  - destruct (start_settles_or_waits rev h m evs) as [_ Hw].
    destruct (Hw Hthrow) as (Hp & _). rewrite Hp in Hv. discriminate.
  - unfold spawn_call_throws in Hthrow.
    destruct (fst (findAvailablePort h DEFAULT_PORT MAX_PORT_ATTEMPTS)) as [p|e] eqn:Hfind.
    + destruct (passes_check rev h) eqn:Hcheck.
      * cbn [andb] in Hthrow. apply negb_false_iff in Hthrow.
        assert (Hreach : reaches_spawn rev h = true)
          by (unfold reaches_spawn; rewrite Hcheck, Hthrow; reflexivity).
        destruct (start_executor_spawned rev h m p Hfind Hreach)
          as ((Hl & Hp & _) & Hthis & _).
        destruct (plain_run rev evs (start_executor rev h m) Hl Hshort) as [_ Hprom].
        -- rewrite Hthis. exact (allocated_port_plain h p Hfind).
        -- intros v' Hv'. rewrite Hp in Hv'. discriminate.
        -- apply Hprom. unfold start, quiesce in Hv.
           destruct (timer (run rev evs (start_executor rev h m))); [|exact Hv].
           rewrite fire_timer_eq in Hv. cbn [promise] in Hv.
           destruct (promise (run rev evs (start_executor rev h m)));
             [discriminate|exact Hv|discriminate].
      * destruct rev; cbn [passes_check] in Hcheck; [discriminate|].
        destruct (start_executor_not_found h m p Hfind Hcheck) as (Hl & Hpr & _ & _).
        destruct (start_executor_not_found_settled h m p Hfind Hcheck) as (_ & Ht).
        rewrite (start_without_listeners preload_js h m evs Hl Ht), Hpr in Hv.
        discriminate.
    + unfold start in Hv. rewrite (start_executor_no_port rev h m e Hfind) in Hv.
      rewrite run_not_listening in Hv by reflexivity. cbn in Hv. discriminate.
Qed.

(** How [startApp()] ends, the chunks carrying at most 15 digits after
    [localhost:].  Either [start()] resolved with a port: then, after the
    window is created, [startApp()] prints the port, waits two seconds
    and loads [http://localhost:<that port>], the port being the value
    [start()] resolved with, a number below 10^15; or [start()] was
    rejected: then it shows the error box with the message of that error
    and asks the application to quit, and loads no URL; in both cases a
    packaged application goes on to check for updates, also after the
    quit request.  Or the call of [spawn] threw: then the [await] never
    returns, and [startApp()] has created the window and does nothing
    more: no URL, no error box, no quit, no update check.  The third case
    occurs exactly when [spawn] throws. *)
Theorem startApp_loads_quits_or_waits (rev : revision) (h : host)
  (evs : list (Z * event)) :
  forallb short_match evs = true ->
  match promise (start rev h constructor evs) with
  | Fulfilled p =>
      plain_port p /\
      spawn_call_throws rev h = false /\
      startApp rev h evs
      = (createWindow h ++
         [MainConsoleLog ("Backend ready on port " ++ Number_toString p);
          Wait 2000;
          WindowLoadURL ("http://localhost:" ++ Number_toString p)]
         ++ update_check h)%list
  | Rejected error =>
      spawn_call_throws rev h = false /\
      startApp rev h evs
      = (createWindow h ++
         [MainConsoleErrorWith "Backend startup failed:" error;
          ShowErrorBox "Startup Error"
            ("Failed to start PPTAgent backend:" ++ newline ++ message error);
          AppQuit]
         ++ update_check h)%list
  | Pending =>
      spawn_call_throws rev h = true /\
      startApp rev h evs = createWindow h
  end.
Proof.
  intros Hshort.
  destruct (start_settles_or_waits rev h constructor evs) as [Hok Hwait].
  pose proof (start_fulfilled_plain rev h constructor evs) as Hplain.
  unfold startApp.
  destruct (promise (start rev h constructor evs)) as [|p|error] eqn:Hp.
  - split; [|rewrite app_nil_r; reflexivity].
    destruct (spawn_call_throws rev h); [reflexivity|].
    destruct (Hok eq_refl) as [Hne _]. congruence.
  - split; [exact (Hplain p Hshort eq_refl)|]. split; [|reflexivity].
    destruct (spawn_call_throws rev h); [|reflexivity].
    destruct (Hwait eq_refl) as (Hpend & _). discriminate.
  - split; [|reflexivity].
    destruct (spawn_call_throws rev h); [|reflexivity].
    destruct (Hwait eq_refl) as (Hpend & _). discriminate.
Qed.

Lemma startApp_loads_quits_or_waits_witness :
  startApp preload_js Examples.host_ok
    [(100, StdoutData "Running on http://localhost:7899")]
  = (createWindow Examples.host_ok ++
     [MainConsoleLog "Backend ready on port 7899";
      Wait 2000;
      WindowLoadURL "http://localhost:7899"])%list.
Proof.
  assert (Hs : forallb short_match
                 [(100, StdoutData "Running on http://localhost:7899")] = true)
    by (vm_compute; reflexivity).
  pose proof (startApp_loads_quits_or_waits preload_js Examples.host_ok
                [(100, StdoutData "Running on http://localhost:7899")] Hs) as H.
  vm_compute in H. vm_compute. exact (proj2 (proj2 H)).
Defined.

(** [startApp()] on a host whose [spawn] throws: the window, and nothing
    after it. *)
Example startApp_waits_when_spawn_throws :
  startApp backend_manager_js Examples.host_spawn_throws []
  = createWindow Examples.host_spawn_throws.
Proof. vm_compute. reflexivity. Qed.

(** ** [start()] and the earlier state of the instance *)

Lemma outcome_state_inv (mc1 mc2 : machine) :
  outcome_state mc1 = outcome_state mc2 ->
  promise mc1 = promise mc2 /\ settled_at mc1 = settled_at mc2 /\
  timer mc1 = timer mc2 /\ listening mc1 = listening mc2 /\
  clock mc1 = clock mc2 /\ port (this mc1) = port (this mc2).
Proof.
  unfold outcome_state. intros H. injection H as H1 H2 H3 H4 H5 H6.
  repeat split; assumption.
Qed.

Lemma outcome_state_calm (rev : revision) (data : string) (mc : machine) :
  is_ready_chunk rev data = false ->
  outcome_state (onStdoutData rev data mc) = outcome_state mc.
Proof.
  intros Hr. pose proof (onStdoutData_calm rev data mc Hr) as E.
  pose proof (f_equal promise E) as A1.
  pose proof (f_equal settled_at E) as A2.
  pose proof (f_equal timer E) as A3.
  pose proof (f_equal listening E) as A4.
  pose proof (f_equal clock E) as A5.
  pose proof (f_equal this E) as A6.
  cbn [state_of promise settled_at timer listening clock this] in A1, A2, A3, A4, A5, A6.
  unfold outcome_state. rewrite A1, A2, A3, A4, A5, A6. reflexivity.
Qed.

Lemma outcome_state_dispatch (rev : revision) (ev : event) (mc1 mc2 : machine) :
  outcome_state mc1 = outcome_state mc2 ->
  outcome_state (dispatch rev ev mc1) = outcome_state (dispatch rev ev mc2).
Proof.
  intros H. destruct (outcome_state_inv _ _ H) as (H1 & H2 & H3 & H4 & H5 & H6).
  destruct ev as [data|data|msg|code]; cbn [dispatch].
  - destruct (is_ready_chunk rev data) eqn:Hr.
    + rewrite !(onStdoutData_ready _ _ _ Hr), !ready_branch_eq.
      unfold outcome_state.
      cbn [promise settled_at timer listening clock this port console_log do_effects].
      rewrite H1, H2, H4, H5, H6. reflexivity.
    + rewrite !(outcome_state_calm _ _ _ Hr). exact H.
  - exact H.
  - rewrite !onError_eq. unfold outcome_state.
    cbn [promise settled_at timer listening clock this port].
    rewrite H1, H2, H4, H5, H6. reflexivity.
  - unfold outcome_state. cbn. unfold outcome_state in H. cbn in H. exact H.
Qed.

Lemma outcome_state_due (rev : revision) (t : Z) (mc1 mc2 : machine) :
  outcome_state mc1 = outcome_state mc2 ->
  outcome_state (due rev t mc1) = outcome_state (due rev t mc2).
Proof.
  intros H. destruct (outcome_state_inv _ _ H) as (H1 & H2 & H3 & H4 & H5 & H6).
  rewrite !due_eq, H3.
  destruct (timer mc2) as [d|] eqn:Ht2; [destruct (d <=? t)|].
  - rewrite !fire_timer_eq. unfold outcome_state.
    cbn [at_time promise settled_at timer listening clock this port].
    rewrite H1, H2, H4, H6. reflexivity.
  - unfold outcome_state. cbn [at_time promise settled_at timer listening clock this port].
    rewrite H1, H2, H3, H4, H6, Ht2. reflexivity.
  - unfold outcome_state. cbn [at_time promise settled_at timer listening clock this port].
    rewrite H1, H2, H3, H4, H6, Ht2. reflexivity.
Qed.

Lemma outcome_state_step (rev : revision) (mc1 mc2 : machine) (tev : Z * event) :
  outcome_state mc1 = outcome_state mc2 ->
  outcome_state (step rev mc1 tev) = outcome_state (step rev mc2 tev).
Proof.
  intros H. destruct (outcome_state_inv _ _ H) as (_ & _ & _ & H4 & _).
  destruct (listening mc2) eqn:Hl.
  - destruct tev as [t ev].
    rewrite (step_eq rev mc1 t ev H4), (step_eq rev mc2 t ev Hl).
    apply outcome_state_dispatch, outcome_state_due, H.
  - unfold step. rewrite H4, Hl. exact H.
Qed.

Lemma outcome_state_run (rev : revision) (evs : list (Z * event)) :
  forall mc1 mc2,
    outcome_state mc1 = outcome_state mc2 ->
    outcome_state (run rev evs mc1) = outcome_state (run rev evs mc2).
Proof.
  induction evs as [|tev evs IH]; intros mc1 mc2 H; [exact H|].
  change (run rev (tev :: evs) ?x) with (run rev evs (step rev x tev)).
  apply IH, outcome_state_step, H.
Qed.

Lemma outcome_state_quiesce (rev : revision) (mc1 mc2 : machine) :
  outcome_state mc1 = outcome_state mc2 ->
  outcome_state (quiesce rev mc1) = outcome_state (quiesce rev mc2).
Proof.
  intros H. destruct (outcome_state_inv _ _ H) as (H1 & H2 & H3 & H4 & H5 & H6).
  unfold quiesce. rewrite H3. destruct (timer mc2) eqn:Ht2; [|exact H].
  rewrite !fire_timer_eq. unfold outcome_state.
  cbn [promise settled_at timer listening clock this port].
  rewrite H1, H2, H4, H6. reflexivity.
Qed.

Lemma start_executor_outcome_state (rev : revision) (h : host) (m : manager) (p : Z) :
  fst (findAvailablePort h DEFAULT_PORT MAX_PORT_ATTEMPTS) = Returns p ->
  reaches_spawn rev h = true ->
  outcome_state (start_executor rev h m)
  = (Pending, None, Some (STARTUP_TIMEOUT_MS rev), true, 0, p).
Proof.
  intros Hp Hs. unfold start_executor.
  destruct (findAvailablePort h DEFAULT_PORT MAX_PORT_ATTEMPTS) as [[p'|e] tr];
    cbn [fst snd] in *; [|discriminate].
  injection Hp as ->.
  unfold reaches_spawn, spawn_returns in Hs. apply andb_prop in Hs.
  destruct Hs as [Hcheck Hret].
  unfold spawn_and_listen.
  destruct (spawn_throws h); [discriminate|].
  destruct rev; cbn [passes_check] in Hcheck; rewrite ?Hcheck; reflexivity.
Qed.

(** [start()] does not look at the instance it is called on.  Whatever
    [this.process], [this.port] and [this.isReady] were, a child already
    tracked included, [start()] settles the same way at the same time and
    makes the same [spawn] call: nothing guards against a second
    [start()], which spawns again and, by the handle it stores, replaces
    the earlier child without a signal to it. *)
Theorem start_ignores_instance_state (rev : revision) (h : host) (m m' : manager)
  (evs : list (Z * event)) :
  promise (start rev h m evs) = promise (start rev h m' evs) /\
  settled_at (start rev h m evs) = settled_at (start rev h m' evs) /\
  spawns (log (start rev h m evs)) = spawns (log (start rev h m' evs)).
Proof.
  assert (Hboth : promise (start rev h m evs) = promise (start rev h m' evs) /\
                  settled_at (start rev h m evs) = settled_at (start rev h m' evs)).
  { destruct (fst (findAvailablePort h DEFAULT_PORT MAX_PORT_ATTEMPTS)) as [p|e] eqn:Hfind.
    - destruct (passes_check rev h) eqn:Hcheck; [destruct (spawn_returns h) eqn:Hret|].
      + assert (Hreach : reaches_spawn rev h = true)
          by (unfold reaches_spawn; rewrite Hcheck, Hret; reflexivity).
        assert (H0 : outcome_state (start_executor rev h m)
                     = outcome_state (start_executor rev h m'))
          by (rewrite !(start_executor_outcome_state rev h _ p Hfind Hreach); reflexivity).
        pose proof (outcome_state_quiesce rev _ _ (outcome_state_run rev evs _ _ H0)) as H.
        destruct (outcome_state_inv _ _ H) as (H1 & H2 & _).
        split; assumption.
      + destruct (start_executor_spawn_throws rev h m p Hfind Hcheck Hret)
          as (Hl & Hp & Hs & Ht & _).
        destruct (start_executor_spawn_throws rev h m' p Hfind Hcheck Hret)
          as (Hl' & Hp' & Hs' & Ht' & _).
        rewrite (start_without_listeners rev h m evs Hl Ht),
          (start_without_listeners rev h m' evs Hl' Ht'), Hp, Hp', Hs, Hs'.
        split; reflexivity.
      + destruct rev; cbn [passes_check] in Hcheck; [discriminate|].
        destruct (start_executor_not_found h m p Hfind Hcheck) as (Hl & Hpr & _).
        destruct (start_executor_not_found h m' p Hfind Hcheck) as (Hl' & Hpr' & _).
        destruct (start_executor_not_found_settled h m p Hfind Hcheck) as (Hs & Ht).
        destruct (start_executor_not_found_settled h m' p Hfind Hcheck) as (Hs' & Ht').
        rewrite (start_without_listeners preload_js h m evs Hl Ht),
          (start_without_listeners preload_js h m' evs Hl' Ht'), Hpr, Hpr', Hs, Hs'.
        split; reflexivity.
    - unfold start. rewrite !(start_executor_no_port rev h _ e Hfind).
      rewrite !run_not_listening by reflexivity. split; reflexivity. }
  destruct Hboth as [H1 H2]. split; [exact H1|]. split; [exact H2|].
  rewrite !spawns_start. reflexivity.
Qed.

(** ** The missing executable, revision by revision *)

Lemma filter_none {A : Type} (f g : A -> bool) (l : list A) :
  (forall e, g e = true -> f e = false) ->
  forallb g l = true ->
  filter f l = [].
Proof.
  intros Hfg. induction l as [|e l IH]; [reflexivity|].
  cbn [forallb filter]. intros H. apply andb_prop in H. destruct H as [He Hl].
  rewrite (Hfg e He). exact (IH Hl).
Qed.

Lemma allocator_effects_loop (h : host) (P : Z) (remaining : nat) :
  forall offset,
    forallb allocator_effect (snd (findAvailablePort_loop h P offset remaining)) = true.
Proof.
  induction remaining as [|n IH]; intros offset; [reflexivity|].
  cbn [findAvailablePort_loop]. unfold isPortAvailable, bind, emit, ret, throw.
  destruct (net_listen h (P + offset)); cbn; try reflexivity.
  specialize (IH (offset + 1)).
  destruct (findAvailablePort_loop h P (offset + 1) n) as [r tr]; cbn in *.
  exact IH.
Qed.

Lemma allocator_effects_findAvailablePort (h : host) (P N : Z) :
  forallb allocator_effect (snd (findAvailablePort h P N)) = true.
Proof.
  rewrite findAvailablePort_unfold.
  pose proof (allocator_effects_loop h P (Z.to_nat N) 0) as H.
  destruct (findAvailablePort_loop h P 0 (Z.to_nat N)) as [[[p|]|e] tr]; exact H.
Qed.

(** [backend-manager.js] never asks whether a file exists. *)
Lemma no_exists_check_backend_manager_js (h : host) (m : manager)
  (evs : list (Z * event)) :
  filter is_exists_check (log (start backend_manager_js h m evs)) = [].
Proof.
  destruct (log_start backend_manager_js h m evs) as (es & He & Hf).
  rewrite He, filter_app.
  rewrite (filter_none is_exists_check listener_effect es); [|  |exact Hf].
  - rewrite app_nil_r. unfold start_executor, spawn_and_listen.
    pose proof (allocator_effects_findAvailablePort h DEFAULT_PORT MAX_PORT_ATTEMPTS) as Ha.
    destruct (findAvailablePort h DEFAULT_PORT MAX_PORT_ATTEMPTS) as [[p|e] tr];
      cbn [snd] in Ha;
      pose proof (filter_none is_exists_check allocator_effect tr
                    ltac:(intros x; destruct x; cbn; congruence) Ha) as Htr.
    + destruct (spawn_throws h); cbn; rewrite ?app_nil_r, !filter_app, Htr; reflexivity.
    + cbn. rewrite filter_app, Htr. reflexivity.
  - intros x; destruct x; cbn; congruence.
Qed.

(** An 'error' event as the first event that is not calm, before the
    delay is over, decides the run. *)
Lemma start_child_error (rev : revision) (h : host) (m : manager)
  (p : Z) (before : list (Z * event)) (t : Z) (msg : string)
  (after : list (Z * event)) :
  fst (findAvailablePort h DEFAULT_PORT MAX_PORT_ATTEMPTS) = Returns p ->
  reaches_spawn rev h = true ->
  forallb (calm_before rev (STARTUP_TIMEOUT_MS rev)) before = true ->
  t < STARTUP_TIMEOUT_MS rev ->
  promise (start rev h m (before ++ (t, ChildError msg) :: after))
    = Rejected (Error ("Failed to start backend: " ++ msg)).
Proof.
  intros Hp Hs Hcalm Hlt.
  destruct (start_executor_spawned rev h m p Hp Hs) as (Hw & _).
  destruct (waiting_run_calm rev _ before _ Hw Hcalm) as (Hw' & _).
  destruct (waiting_step_error rev _ _ t msg Hw' Hlt) as (H1 & _).
  unfold start. rewrite run_app.
  change (run rev ((t, ChildError msg) :: after) ?x)
    with (run rev after (step rev x (t, ChildError msg))).
  set (mc1 := step rev (run rev before (start_executor rev h m)) (t, ChildError msg)) in *.
  assert (Hne : promise mc1 <> Pending) by (rewrite H1; discriminate).
  destruct (settled_run rev after mc1 Hne) as [H4 _].
  assert (Hne' : promise (run rev after mc1) <> Pending) by (rewrite H4; exact Hne).
  destruct (settled_quiesce rev _ Hne') as [H5 _].
  rewrite H5, H4. exact H1.
Qed.

(** C6, amended.  Let a port be allocated and the resolved executable
    path not exist.  In the later revision [start()] fails at once with
    the not-found error, whose remediation hint is another for the
    packaged application than for the development tree; [spawn] is
    never called and no handle is stored, whatever is delivered
    afterwards.  [backend-manager.js] makes no existence check: its
    [start()] never calls [existsSync] and calls [spawn] on the missing
    path; when [spawn] returns a child and the child's 'error' event is
    the first event that is not calm, before the 30 seconds are over,
    [start()] fails with "Failed to start backend: " and the message of
    that event. *)
Theorem start_missing_executable_by_revision (h : host) (m : manager) (p : Z)
  (evs : list (Z * event)) :
  fst (findAvailablePort h DEFAULT_PORT MAX_PORT_ATTEMPTS) = Returns p ->
  fs_existsSync h (getBackendPath h) = false ->
  (promise (start preload_js h m evs)
     = Rejected (Error (not_found_message h (getBackendPath h))) /\
   settled_at (start preload_js h m evs) = Some 0 /\
   spawns (log (start preload_js h m evs)) = [] /\
   process (this (start preload_js h m evs)) = process m /\
   (forall h', app_isPackaged h' = negb (app_isPackaged h) ->
               not_found_message h' (getBackendPath h)
               <> not_found_message h (getBackendPath h)))
  /\
  (filter is_exists_check (log (start backend_manager_js h m evs)) = [] /\
   spawns (log (start backend_manager_js h m evs))
     = [Spawn (getBackendPath h) ["-u"] stdio_pipes true] /\
   (spawn_returns h = true ->
    forall before t msg after,
      forallb (calm_before backend_manager_js 30000) before = true ->
      t < 30000 ->
      promise (start backend_manager_js h m (before ++ (t, ChildError msg) :: after))
        = Rejected (Error ("Failed to start backend: " ++ msg)))).
Proof.
  intros Hp He. split.
  - destruct (start_executor_not_found h m p Hp He) as (Hl & Hpr & Hsp & Hproc).
    destruct (start_executor_not_found_settled h m p Hp He) as (Hsa & Ht).
    rewrite (start_without_listeners preload_js h m evs Hl Ht).
    split; [exact Hpr|]. split; [exact Hsa|]. split; [exact Hsp|]. split; [exact Hproc|].
    intros h' Hh'. destruct (app_isPackaged h) eqn:Hpk; cbn [negb] in Hh'.
    + intros Heq. symmetry in Heq. revert Heq. apply not_found_hint_differs; assumption.
    + apply not_found_hint_differs; assumption.
  - split; [apply no_exists_check_backend_manager_js|]. split.
    + rewrite spawns_start, Hp. reflexivity.
    + intros Hret before t msg after Hcalm Hlt.
      apply (start_child_error backend_manager_js h m p before t msg after Hp);
        [|exact Hcalm|exact Hlt].
      unfold reaches_spawn. rewrite Hret. reflexivity.
Qed.

Lemma start_missing_executable_by_revision_witness :
  promise (start preload_js (Examples.host_no_backend true) constructor [])
    = Rejected (Error (not_found_message (Examples.host_no_backend true)
                         "/opt/app/resources/backend/backend.exe")) /\
  spawns (log (start preload_js (Examples.host_no_backend true) constructor [])) = [] /\
  spawns (log (start backend_manager_js (Examples.host_no_backend true) constructor []))
    = [Spawn "/opt/app/resources/backend/backend.exe" ["-u"] ["pipe"; "pipe"; "pipe"] true].
Proof.
  assert (Hp : fst (findAvailablePort (Examples.host_no_backend true)
                      DEFAULT_PORT MAX_PORT_ATTEMPTS) = Returns 7861)
    by (vm_compute; reflexivity).
  assert (He : fs_existsSync (Examples.host_no_backend true)
                 (getBackendPath (Examples.host_no_backend true)) = false)
    by reflexivity.
  pose proof (start_missing_executable_by_revision (Examples.host_no_backend true)
                constructor 7861 [] Hp He) as H.
  split; [exact (proj1 (proj1 H))|].
  split; [exact (proj1 (proj2 (proj2 (proj1 H))))|].
  exact (proj1 (proj2 (proj2 H))).
Defined.
